(** * Synchronization engine of the midterm-rental backend

    A shallow embedding of the vendor synchronization code:
    - [src/lib/guestyToken.ts]      (module [GuestyToken])
    - [src/services/listingSync.ts] (module [ListingSync])
    - [src/services/calendarSync.ts] (module [CalendarSync])
    - [src/routes/webhooks.ts]      (module [Webhooks])

    The persistent store (Prisma), the vendor HTTP API (axios) and the job
    queue (Bull) are modelled at their interface: tables are part of an
    explicit [World], vendor answers come from an [Env] oracle, and every
    externally visible action is appended to a [trace]. The store takes
    any well-typed row; the one failure of its own that is modelled is the
    refusal of an argument of the wrong type, which the untyped webhook
    body can cause.

    JavaScript numbers are IEEE-754 binary64 values ([SpecFloat]), decimals
    are exact, and the two conversions between them are the correctly
    rounded ones of the language. Identifiers, page numbers and times in
    milliseconds are integers.

    The embedding comes first, then the vocabulary of the properties and
    concrete worlds to evaluate the code on, then the properties. *)

From Stdlib Require Import ZArith Lia Bool Ascii String SpecFloat.
From stdpp Require Import base option list gmap strings.

Local Open Scope string_scope.
Local Open Scope list_scope.
Local Open Scope Z_scope.

(** ** JavaScript values *)

Module Js.

(** [a ?? b] on nullable values: [None] stands for [null]/[undefined]. *)
Definition coalesce {A} (a b : option A) : option A :=
  match a with Some _ => a | None => b end.

(** [a ?? d] where [d] can not be nullish. *)
Definition coalesceTo {A} (a : option A) (d : A) : A :=
  match a with Some x => x | None => d end.

(** Truthiness of a string: every string but the empty one. *)
Definition truthyString (s : string) : bool := negb (String.eqb s "").

(** Truthiness of a nullable string, as in [if (!host.guestyRefreshToken)]. *)
Definition truthy (o : option string) : bool :=
  match o with Some s => truthyString s | None => false end.

(** A [Date] object is its time value; [None] is the NaN of an invalid date. *)
Definition Date := option Z.

Definition MAX_TIME : Z := 8640000000000000.

(** [new Date(t)] for an integral number of milliseconds (TimeClip). *)
Definition newDate (t : Z) : Date :=
  if (Z.abs t <=? MAX_TIME) then Some t else None.

End Js.

Infix "??" := Js.coalesce (at level 45, right associativity).
Infix "??:" := Js.coalesceTo (at level 46, left associativity).

(** ** The store, the clock and the trace *)

(** Row of the [Host] table, restricted to the vendor credential columns. *)
Record Host := mkHost {
  host_id : Z;
  guestyAccountId : option string;
  guestyAccessToken : option string;
  guestyRefreshToken : option string;
  guestyTokenType : option string;
  guestyScope : option string;
  guestyExpiresAt : option Js.Date;
}.

(** Externally visible actions, in the order they are performed. *)
Inductive Event :=
| EvTokenGrant (refreshToken : string)
| EvHostUpdate (hostId : Z)
| EvListingsPage (page limit : Z)
| EvListingGet (guestyListingId : string)
| EvAvailabilityGet (guestyListingId : string) (startDate endDate : Z)
| EvListingUpsert (guestyId : string)
| EvCalendarDayUpsert (listingId : Z) (date : Js.Date).

(** What a JavaScript [throw] carries in this code. *)
Inductive Exn :=
| HostNotFound (hostId : Z)
| MissingRefreshToken (hostId : Z)
| MissingClientCredentials
| AxiosError
| MissingAccessToken
| PersistFailed
| ListingNotFound (listingId : Z)
| ListingNotLinked (listingId : Z)
| PrismaRecordNotFound
| PrismaUniqueConstraint
| PrismaValidationError
| TypeError
| RangeError.

Inductive Result (A : Type) :=
| Ok (a : A)
| Throw (e : Exn).
Arguments Ok {A} a.
Arguments Throw {A} e.

(** ** Numbers and exact decimals *)

Module Num.

(** A JavaScript number is an IEEE-754 binary64 value. *)
Definition Number := spec_float.

Definition prec : Z := 53.
Definition emax : Z := 1024.

(** [Number.isFinite(x)] for a value of type number. *)
Definition isFinite (x : Number) : bool :=
  match x with
  | S754_zero _ | S754_finite _ _ _ => true
  | S754_infinity _ | S754_nan => false
  end.

(** The number value of an integer: nearest double, ties to even. *)
Definition ofZ (z : Z) : Number := binary_normalize prec emax z 0 false.

(** The number value of the rational [n / d]: nearest double, ties to even. *)
Definition ofRatio (n : Z) (d : positive) : Number :=
  match n with
  | Z0 => S754_zero false
  | Zpos p => SFdiv prec emax (S754_finite false p 0) (S754_finite false d 0)
  | Zneg p => SFdiv prec emax (S754_finite true p 0) (S754_finite false d 0)
  end.

(** A [Prisma.Decimal] (decimal.js): [coef * 10 ^ exp10], NaN or an infinity. *)
Inductive Decimal :=
| DecFinite (coef exp10 : Z)
| DecNaN
| DecInfinity (negative : bool).

Fixpoint stripZeros (fuel : nat) (c e : Z) : Z * Z :=
  match fuel with
  | O => (c, e)
  | S f => if c mod 10 =? 0 then stripZeros f (c / 10) (e + 1) else (c, e)
  end.

(** decimal.js keeps no trailing zero: 120.00 and 120 are the same value. *)
Definition normalize (d : Decimal) : Decimal :=
  match d with
  | DecFinite c e =>
      if c =? 0 then DecFinite 0 0
      else let '(c', e') := stripZeros (S (Z.to_nat (Z.log2 (Z.abs c)))) c e in
           DecFinite c' e'
  | _ => d
  end.

Definition zero : Decimal := DecFinite 0 0.

(** [Number(d)]: the decimal string of [d] read back as a number. *)
Definition toNumber (d : Decimal) : Number :=
  match d with
  | DecNaN => S754_nan
  | DecInfinity s => S754_infinity s
  | DecFinite c e =>
      if 0 <=? e then ofZ (c * 10 ^ e) else ofRatio c (Z.to_pos (10 ^ (- e)))
  end.

(** [num / den < 10 ^ D] for a positive rational. *)
Definition ltPow10 (num den D : Z) : bool :=
  if 0 <=? D then num <? den * 10 ^ D else num * 10 ^ (- D) <? den.

Fixpoint magnitude10 (fuel : nat) (num den D : Z) : Z :=
  match fuel with
  | O => D
  | S f => if ltPow10 num den D then D else magnitude10 f num den (D + 1)
  end.

(** The [k]-digit decimal that reads back as [x], if there is one; the
    closest to [x] when two do (Number::toString, step 5). *)
Definition shortestAt (x : Number) (num den D k : Z) : option (Z * Z) :=
  let t := D - k in
  let yn := if 0 <=? t then num else num * 10 ^ (- t) in
  let yd := if 0 <=? t then den * 10 ^ t else den in
  let lo := yn / yd in
  let hi := lo + 1 in
  let okLo := SFeqb (toNumber (DecFinite lo t)) x in
  let okHi := SFeqb (toNumber (DecFinite hi t)) x in
  match okLo, okHi with
  | true, false => Some (lo, t)
  | false, true => Some (hi, t)
  | false, false => None
  | true, true =>
      let r := 2 * (yn mod yd) in
      if r <? yd then Some (lo, t)
      else if yd <? r then Some (hi, t)
      else if Z.even lo then Some (lo, t) else Some (hi, t)
  end.

Fixpoint shortest (fuel : nat) (x : Number) (num den D k : Z) : Z * Z :=
  match fuel with
  | O => (0, 0)
  | S f =>
      match shortestAt x num den D k with
      | Some r => r
      | None => shortest f x num den D (k + 1)
      end
  end.

(** [new Prisma.Decimal(x)] for a number [x]: the value of the shortest
    decimal string that reads back as [x] (what [x.toString()] prints). *)
Definition ofNumber (x : Number) : Decimal :=
  match x with
  | S754_nan => DecNaN
  | S754_infinity s => DecInfinity s
  | S754_zero _ => zero
  | S754_finite s m e =>
      let ax := S754_finite false m e in
      let num := if 0 <=? e then Zpos m * 2 ^ e else Zpos m in
      let den := if 0 <=? e then 1 else 2 ^ (- e) in
      let D := magnitude10 700 num den (-330) in
      let '(c, t) := shortest 17 ax num den D 1 in
      normalize (DecFinite (if s then - c else c) t)
  end.

End Num.

(** ** JSON values

    What [JSON.parse] produces, and what the untyped columns of the store
    hold. A number is kept as the string [Number::toString] prints for it:
    the code below only stringifies numbers or tests them for truthiness. *)

#[warnings="-register-all"]
Inductive Json :=
| JNull
| JBool (b : bool)
| JNum (repr : string)
| JStr (s : string)
| JArr (items : list Json)
| JObj (fields : list (string * Json)).

(** ** Tables *)

(** The descriptive columns of a listing: the fields of the [update]
    argument of [prisma.listing.upsert]. *)
Record ListingAttrs := mkListingAttrs {
  title : string;
  description : option string;
  propertyType : option string;
  bedrooms : option Num.Number;
  bathrooms : option Num.Number;
  beds : option Num.Number;
  maxGuests : option Num.Number;
  addressLine1 : option string;
  addressLine2 : option string;
  city : option string;
  state : option string;
  postalCode : option string;
  country : option string;
  latitude : option Num.Number;
  longitude : option Num.Number;
  photos : Json;
  amenities : list string;
  basePrice : option Num.Decimal;
}.

Record Listing := mkListing {
  listing_id : Z;
  listing_guestyId : option string;
  listing_hostId : Z;
  listing_attrs : ListingAttrs;
}.

Record CalendarDay := mkCalendarDay {
  day_id : Z;
  day_listingId : Z;
  day_date : Js.Date;
  day_available : bool;
  day_price : Num.Decimal;
  day_minStay : Num.Number;
}.

(** Jobs of the [sync-jobs] queue with their payload. The webhook route
    passes the listing identifier on as it found it in the untyped body. *)
Inductive Job :=
| SyncListings (hostId : Z)
| SyncSingleListing (hostId : Z) (guestyListingId : Json)
| SyncCalendar (listingId : Z)
| SyncAllHosts.

Record World := mkWorld {
  hosts : gmap Z Host;
  listings : list Listing;
  nextListingId : Z;
  calendarDays : list CalendarDay;
  nextCalendarDayId : Z;
  queue : list Job;
  clock : Z;
  trace : list Event;
}.

Definition withHosts (f : gmap Z Host → gmap Z Host) (w : World) : World :=
  mkWorld (f (hosts w)) (listings w) (nextListingId w) (calendarDays w)
          (nextCalendarDayId w) (queue w) (clock w) (trace w).

Definition withListings (ls : list Listing) (next : Z) (w : World) : World :=
  mkWorld (hosts w) ls next (calendarDays w)
          (nextCalendarDayId w) (queue w) (clock w) (trace w).

Definition withCalendarDays (ds : list CalendarDay) (next : Z) (w : World) : World :=
  mkWorld (hosts w) (listings w) (nextListingId w) ds next
          (queue w) (clock w) (trace w).

Definition withQueue (q : list Job) (w : World) : World :=
  mkWorld (hosts w) (listings w) (nextListingId w) (calendarDays w)
          (nextCalendarDayId w) q (clock w) (trace w).

Definition withClock (t : Z) (w : World) : World :=
  mkWorld (hosts w) (listings w) (nextListingId w) (calendarDays w)
          (nextCalendarDayId w) (queue w) t (trace w).

Definition withTrace (tr : list Event) (w : World) : World :=
  mkWorld (hosts w) (listings w) (nextListingId w) (calendarDays w)
          (nextCalendarDayId w) (queue w) (clock w) tr.

(** ** Computations: state and exceptions *)

Definition M (A : Type) : Type := World → Result A * World.

Definition ret {A} (a : A) : M A := fun w => (Ok a, w).

Definition bind {A B} (m : M A) (k : A → M B) : M B :=
  fun w =>
    match m w with
    | (Ok a, w') => k a w'
    | (Throw e, w') => (Throw e, w')
    end.

Definition throw {A} (e : Exn) : M A := fun w => (Throw e, w).

Definition gets {A} (f : World → A) : M A := fun w => (Ok (f w), w).

Definition modify (f : World → World) : M unit := fun w => (Ok tt, f w).

(** [try { m } catch (err) { h err }] *)
Definition tryCatch {A} (m : M A) (h : Exn → M A) : M A :=
  fun w =>
    match m w with
    | (Ok a, w') => (Ok a, w')
    | (Throw e, w') => h e w'
    end.

Notation "'let*' x := m 'in' k" := (bind m (fun x => k))
  (at level 10, x name, m at level 100, k at level 200).
Notation "m ;;; k" := (bind m (fun _ => k))
  (at level 100, k at level 200, right associativity).

Definition emit (e : Event) : M unit :=
  modify (fun w => withTrace (trace w ++ [e]) w).

(** [Date.now()] *)
Definition Date_now : M Z := gets clock.

(** ** Deployment configuration and the vendor *)

Record GuestyTokenResponse := mkTokenResponse {
  access_token : option string;
  refresh_token : option string;
  token_type : option string;
  scope : option string;
  expires_in : option Z;
}.

(** Vendor payloads of [listingSync.ts]. *)
Module GuestyAddress.
Record t := mk {
  full : option string;
  street : option string;
  line1 : option string;
  line2 : option string;
  address1 : option string;
  address2 : option string;
  apt : option string;
  city : option string;
  state : option string;
  province : option string;
  zip : option string;
  postalCode : option string;
  country : option string;
}.
(** The object literal [{}]. *)
Definition empty : t :=
  mk None None None None None None None None None None None None None.
End GuestyAddress.

Module GuestyLocation.
Record t := mk {
  lat : option Num.Number;
  lng : option Num.Number;
  latitude : option Num.Number;
  longitude : option Num.Number;
}.
Definition empty : t := mk None None None None.
End GuestyLocation.

Module GuestyListing.
Record t := mk {
  _id : option string;
  id : option string;
  title : option string;
  name : option string;
  description : option string;
  propertyType : option string;
  propertyTypeCategory : option string;
  bedrooms : option Num.Number;
  bathrooms : option Num.Number;
  beds : option Num.Number;
  accommodates : option Num.Number;
  maxGuests : option Num.Number;
  address : option GuestyAddress.t;
  location : option GuestyLocation.t;
  geo : option GuestyLocation.t;
  amenities : option (list string);
  pictures : option Json;
  images : option Json;
  basePrice : option Num.Number;
  defaultDailyPrice : option Num.Number;
  dailyRate : option Num.Number;
}.
End GuestyListing.

Module GuestyListResponse.
Record t := mk {
  results : option (list GuestyListing.t);
  data : option (list GuestyListing.t);
  page : option Z;
  pages : option Z;
  limit : option Z;
}.
End GuestyListResponse.

(** Vendor payloads of [calendarSync.ts]. *)
Module GuestyAvailabilityDay.
Record t := mk {
  date : option string;
  available : option bool;
  price : option Num.Number;
  nightlyPrice : option Num.Number;
  basePrice : option Num.Number;
  defaultDailyPrice : option Num.Number;
  minimumStay : option Num.Number;
  minNights : option Num.Number;
  minStay : option Num.Number;
}.
End GuestyAvailabilityDay.

Module GuestyAvailabilityResponse.
Record t := mk {
  results : option (list GuestyAvailabilityDay.t);
  days : option (list GuestyAvailabilityDay.t);
  data : option (list GuestyAvailabilityDay.t);
}.
End GuestyAvailabilityResponse.

(** [process.env] and the vendor's answers. An endpoint answering [None]
    is a request that axios rejects (network failure or non-2xx status).
    Every request lets [networkDelay] milliseconds pass on the clock. *)
Record Env := mkEnv {
  GUESTY_CLIENT_ID : option string;
  GUESTY_CLIENT_SECRET : option string;
  (** POST token URL: refresh_token, client_id, client_secret *)
  tokenEndpoint : string → string → string → option GuestyTokenResponse;
  (** GET /listings: bearer token, page, limit *)
  listingsEndpoint : string → Z → Z → option GuestyListResponse.t;
  (** GET /listings/:id: bearer token, identifier *)
  listingEndpoint : string → string → option GuestyListing.t;
  (** GET availability: bearer token, listingId, startDate, endDate; the
      two dates are given by their UTC midnight instead of its YYYY-MM-DD
      print *)
  availabilityEndpoint :
    string → string → Z → Z → option GuestyAvailabilityResponse.t;
  (** [new Date(s)] for a string: implementation-defined outside ISO 8601 *)
  Date_parse : string → Js.Date;
  networkDelay : Z;
}.

(** An awaited axios request: recorded, timed, and rejected on [None]. *)
Definition request {A} (env : Env) (e : Event) (answer : option A) : M A :=
  emit e ;;;
  modify (fun w => withClock (clock w + networkDelay env) w) ;;;
  match answer with
  | Some a => ret a
  | None => throw AxiosError
  end.

(** ** src/lib/guestyToken.ts *)

Module GuestyToken.

Definition TOKEN_EXPIRY_BUFFER_MS : Z := 5 * 60 * 1000.

(** [prisma.host.findUnique({ where: { id } })] *)
Definition host_findUnique (hostId : Z) : M (option Host) :=
  gets (fun w => hosts w !! hostId).

(** [prisma.host.update({ where: { id }, data })]: returns the new row. *)
Definition host_update (hostId : Z) (data : Host → Host) : M Host :=
  let* found := host_findUnique hostId in
  match found with
  | None => throw PrismaRecordNotFound
  | Some h =>
      let h' := data h in
      emit (EvHostUpdate hostId) ;;;
      modify (withHosts (insert hostId h')) ;;;
      ret h'
  end.

(** [host.guestyAccessToken && host.guestyExpiresAt &&
     host.guestyExpiresAt.getTime() - now > TOKEN_EXPIRY_BUFFER_MS] *)
Definition tokenStillValid (host : Host) (now : Z) : bool :=
  Js.truthy (guestyAccessToken host) &&
  match guestyExpiresAt host with
  | None => false
  | Some None => false
  | Some (Some t) => TOKEN_EXPIRY_BUFFER_MS <? t - now
  end.

Definition getGuestyAccessToken (env : Env) (hostId : Z) : M string :=
  let* found := host_findUnique hostId in
  match found with
  | None => throw (HostNotFound hostId)
  | Some host =>
      let* now := Date_now in
      if tokenStillValid host now then
        ret (guestyAccessToken host ??: "")
      else if negb (Js.truthy (guestyRefreshToken host)) then
        throw (MissingRefreshToken hostId)
      else
        let clientId := GUESTY_CLIENT_ID env in
        let clientSecret := GUESTY_CLIENT_SECRET env in
        if negb (Js.truthy clientId) || negb (Js.truthy clientSecret) then
          throw MissingClientCredentials
        else
          let refreshToken := guestyRefreshToken host ??: "" in
          let* data :=
            request env (EvTokenGrant refreshToken)
              (tokenEndpoint env refreshToken (clientId ??: "") (clientSecret ??: "")) in
          if negb (Js.truthy (access_token data)) then
            throw MissingAccessToken
          else
            let* now' := Date_now in
            let expiresAt : option Js.Date :=
              match expires_in data with
              | Some n => Some (Js.newDate (now' + n * 1000))
              | None => None
              end in
            let* updatedHost :=
              host_update hostId (fun h =>
                mkHost (host_id h) (guestyAccountId h)
                  (access_token data)
                  (refresh_token data ?? guestyRefreshToken host)
                  (token_type data ?? guestyTokenType host)
                  (scope data ?? guestyScope host)
                  (expiresAt ?? guestyExpiresAt host)) in
            if negb (Js.truthy (guestyAccessToken updatedHost)) then
              throw PersistFailed
            else
              ret (guestyAccessToken updatedHost ??: "")
  end.

End GuestyToken.

(** ** src/services/listingSync.ts *)

Module ListingSync.

Definition DEFAULT_PAGE_SIZE : Z := 50.

Definition extractGuestyId (listing : GuestyListing.t) : option string :=
  GuestyListing._id listing ?? GuestyListing.id listing.

(** An [unknown] JSON property counts for [??] unless it is [null]. *)
Definition defined (j : option Json) : option Json :=
  match j with
  | Some JNull => None
  | _ => j
  end.

(** The [create] argument of the upsert. Its empty nested
    [calendarDays: { create: [] }] writes nothing and is left out. *)
Record ListingCreate := mkCreate {
  create_guestyId : string;
  create_hostId : Z;
  create_attrs : ListingAttrs;
}.

Definition mapGuestyListingToPrismaData (guesty : GuestyListing.t) (hostId : Z)
  : ListingCreate * ListingAttrs :=
  let address := GuestyListing.address guesty ??: GuestyAddress.empty in
  let loc :=
    (GuestyListing.location guesty ?? GuestyListing.geo guesty)
      ??: GuestyLocation.empty in
  let title :=
    (GuestyListing.title guesty ?? GuestyListing.name guesty
       ?? GuestyAddress.full address) ??: "Untitled listing" in
  let photos :=
    (defined (GuestyListing.pictures guesty) ?? defined (GuestyListing.images guesty))
      ??: JArr [] in
  let amenities := GuestyListing.amenities guesty ??: [] in
  let basePriceNumber :=
    (GuestyListing.basePrice guesty ?? GuestyListing.defaultDailyPrice guesty
       ?? GuestyListing.dailyRate guesty) ??: Num.ofZ 0 in
  let basePriceDecimal := Num.ofNumber basePriceNumber in
  let create :=
    mkCreate
      (extractGuestyId guesty ??: "")
      hostId
      (mkListingAttrs
         title
         (GuestyListing.description guesty)
         (GuestyListing.propertyType guesty ?? GuestyListing.propertyTypeCategory guesty)
         (GuestyListing.bedrooms guesty)
         (GuestyListing.bathrooms guesty)
         (GuestyListing.beds guesty)
         (GuestyListing.maxGuests guesty ?? GuestyListing.accommodates guesty)
         (GuestyAddress.street address ?? GuestyAddress.line1 address
            ?? GuestyAddress.address1 address)
         (GuestyAddress.apt address ?? GuestyAddress.line2 address
            ?? GuestyAddress.address2 address)
         (GuestyAddress.city address)
         (GuestyAddress.state address ?? GuestyAddress.province address)
         (GuestyAddress.zip address ?? GuestyAddress.postalCode address)
         (GuestyAddress.country address)
         (match GuestyLocation.lat loc with
          | Some x => Some x
          | None => match GuestyLocation.latitude loc with
                    | Some x => Some x
                    | None => None
                    end
          end)
         (match GuestyLocation.lng loc with
          | Some x => Some x
          | None => match GuestyLocation.longitude loc with
                    | Some x => Some x
                    | None => None
                    end
          end)
         photos
         amenities
         (Some basePriceDecimal)) in
  let update :=
    mkListingAttrs
      title
      (GuestyListing.description guesty)
      (GuestyListing.propertyType guesty ?? GuestyListing.propertyTypeCategory guesty)
      (GuestyListing.bedrooms guesty)
      (GuestyListing.bathrooms guesty)
      (GuestyListing.beds guesty)
      (GuestyListing.maxGuests guesty ?? GuestyListing.accommodates guesty)
      (GuestyAddress.street address ?? GuestyAddress.line1 address
         ?? GuestyAddress.address1 address)
      (GuestyAddress.apt address ?? GuestyAddress.line2 address
         ?? GuestyAddress.address2 address)
      (GuestyAddress.city address)
      (GuestyAddress.state address ?? GuestyAddress.province address)
      (GuestyAddress.zip address ?? GuestyAddress.postalCode address)
      (GuestyAddress.country address)
      (match GuestyLocation.lat loc with
       | Some x => Some x
       | None => match GuestyLocation.latitude loc with
                 | Some x => Some x
                 | None => None
                 end
       end)
      (match GuestyLocation.lng loc with
       | Some x => Some x
       | None => match GuestyLocation.longitude loc with
                 | Some x => Some x
                 | None => None
                 end
       end)
      photos
      amenities
      (Some basePriceDecimal) in
  (create, update).

Definition hasGuestyId (key : string) (row : Listing) : bool :=
  bool_decide (listing_guestyId row = Some key).

(** An update rewrites the descriptive columns and nothing else. *)
Definition applyUpdate (update : ListingAttrs) (row : Listing) : Listing :=
  mkListing (listing_id row) (listing_guestyId row) (listing_hostId row) update.

(** [prisma.listing.upsert({ where: { guestyId }, create, update })]:
    the row with this unique key is updated in place, or a row is created
    (which the unique index refuses when [create.guestyId] is taken). *)
Definition listing_upsert (guestyId : string) (create : ListingCreate)
    (update : ListingAttrs) : M Listing :=
  emit (EvListingUpsert guestyId) ;;;
  let* rows := gets listings in
  let* next := gets nextListingId in
  match find (hasGuestyId guestyId) rows with
  | Some row =>
      modify (withListings
                (map (fun r => if hasGuestyId guestyId r then applyUpdate update r else r)
                     rows) next) ;;;
      ret (applyUpdate update row)
  | None =>
      if existsb (hasGuestyId (create_guestyId create)) rows then
        throw PrismaUniqueConstraint
      else
        let row :=
          mkListing next (Some (create_guestyId create)) (create_hostId create)
                    (create_attrs create) in
        modify (withListings (rows ++ [row]) (next + 1)) ;;;
        ret row
  end.

(** The body of [for (const raw of rawListings)]. *)
Fixpoint forEachRaw (hostId : Z) (rawListings : list GuestyListing.t)
    (syncedListings : list Listing) : M (list Listing) :=
  match rawListings with
  | [] => ret syncedListings
  | raw :: rest =>
      let guestyId := extractGuestyId raw in
      if negb (Js.truthy guestyId) then
        forEachRaw hostId rest syncedListings
      else
        let '(create, update) := mapGuestyListingToPrismaData raw hostId in
        let* listing := listing_upsert (guestyId ??: "") create update in
        forEachRaw hostId rest (syncedListings ++ [listing])
  end.

(** [data.pages] as a condition: a page count other than zero. *)
Definition truthyPages (pages : option Z) : bool :=
  match pages with
  | Some p => negb (p =? 0)
  | None => false
  end.

(** The [while (true)] loop. It has no bound of its own: [fuel] counts the
    iterations allowed, and [None] is a run that needs more. *)
Fixpoint pageLoop (fuel : nat) (env : Env) (accessToken : string) (hostId : Z)
    (page : Z) (syncedListings : list Listing) (w : World)
  : option (Result (list Listing) * World) :=
  match fuel with
  | O => None
  | S fuel' =>
      let limit := DEFAULT_PAGE_SIZE in
      match request env (EvListingsPage page limit)
              (listingsEndpoint env accessToken page limit) w with
      | (Throw e, w1) => Some (Throw e, w1)
      | (Ok data, w1) =>
          let rawListings :=
            (GuestyListResponse.results data ?? GuestyListResponse.data data) ??: [] in
          if Z.of_nat (length rawListings) =? 0 then Some (Ok syncedListings, w1)
          else
            match forEachRaw hostId rawListings syncedListings w1 with
            | (Throw e, w2) => Some (Throw e, w2)
            | (Ok synced', w2) =>
                let pages := GuestyListResponse.pages data in
                if truthyPages pages && (pages ??: 0 <=? page) then
                  Some (Ok synced', w2)
                else if negb (truthyPages pages)
                        && (Z.of_nat (length rawListings) <? limit) then
                  Some (Ok synced', w2)
                else
                  pageLoop fuel' env accessToken hostId (page + 1) synced' w2
            end
      end
  end.

Definition syncAllListingsForHost (fuel : nat) (env : Env) (hostId : Z) (w : World)
  : option (Result (list Listing) * World) :=
  match GuestyToken.getGuestyAccessToken env hostId w with
  | (Throw e, w0) => Some (Throw e, w0)
  | (Ok accessToken, w0) => pageLoop fuel env accessToken hostId 1 [] w0
  end.

Definition syncListingByGuestyId (env : Env) (hostId : Z) (guestyListingId : string)
  : M Listing :=
  let* accessToken := GuestyToken.getGuestyAccessToken env hostId in
  let* data :=
    request env (EvListingGet guestyListingId)
      (listingEndpoint env accessToken guestyListingId) in
  let guestyId := extractGuestyId data ??: guestyListingId in
  let '(create, update) := mapGuestyListingToPrismaData data hostId in
  let create := mkCreate guestyId (create_hostId create) (create_attrs create) in
  listing_upsert guestyId create update.

End ListingSync.

(** ** src/services/calendarSync.ts *)

Module CalendarSync.

Definition msPerDay : Z := 86400000.

(** Day number of a civil date (month 1..12) and back, proleptic Gregorian
    calendar, day 0 being 1970-01-01: [MakeDay] and [YearFromTime],
    [MonthFromTime], [DateFromTime] of ECMAScript. *)
Definition daysFromCivil (y m d : Z) : Z :=
  let y' := if m <=? 2 then y - 1 else y in
  let era := y' / 400 in
  let yoe := y' - era * 400 in
  let mp := (m + 9) mod 12 in
  let doy := (153 * mp + 2) / 5 + d - 1 in
  let doe := yoe * 365 + yoe / 4 - yoe / 100 + doy in
  era * 146097 + doe - 719468.

Definition civilFromDays (z : Z) : Z * Z * Z :=
  let z' := z + 719468 in
  let era := z' / 146097 in
  let doe := z' - era * 146097 in
  let yoe := (doe - doe / 1460 + doe / 36524 - doe / 146096) / 365 in
  let doy := doe - (365 * yoe + yoe / 4 - yoe / 100) in
  let mp := (5 * doy + 2) / 153 in
  let d := doy - (153 * mp + 2) / 5 + 1 in
  let m := if mp <? 10 then mp + 3 else mp - 9 in
  let y := yoe + era * 400 in
  (if m <=? 2 then y + 1 else y, m, d).

(** [MakeDay(year, month, date)] with a 0-based month that may overflow. *)
Definition makeDay (year month date : Z) : Z :=
  daysFromCivil (year + month / 12) (month mod 12 + 1) 1 + date - 1.

(** [new Date(Date.UTC(d.getUTCFullYear(), d.getUTCMonth(), d.getUTCDate()))].
    [Date.UTC] reads a year from 0 to 99 as 1900 + year. *)
Definition startOfDayUtc (d : Js.Date) : Js.Date :=
  match d with
  | None => None
  | Some t =>
      let '(y, m, dt) := civilFromDays (t / msPerDay) in
      let yr := if (0 <=? y) && (y <=? 99) then 1900 + y else y in
      Js.newDate (makeDay yr (m - 1) dt * msPerDay)
  end.

(** [copy.setUTCMonth(copy.getUTCMonth() + months)] on a copy of [d]. *)
Definition addMonths (d : Js.Date) (months : Z) : Js.Date :=
  match d with
  | None => None
  | Some t =>
      let '(y, m, dt) := civilFromDays (t / msPerDay) in
      Js.newDate (makeDay y (m - 1 + months) dt * msPerDay + t mod msPerDay)
  end.

Definition hasId (listingId : Z) (row : Listing) : bool :=
  listing_id row =? listingId.

Definition getListingWithHost (listingId : Z) : M Listing :=
  let* found := gets (fun w => find (hasId listingId) (listings w)) in
  match found with
  | None => throw (ListingNotFound listingId)
  | Some listing =>
      if negb (Js.truthy (listing_guestyId listing)) then
        throw (ListingNotLinked listingId)
      else ret listing
  end.

Definition hasKey (listingId : Z) (date : Js.Date) (row : CalendarDay) : bool :=
  (day_listingId row =? listingId) && bool_decide (day_date row = date).

(** [prisma.calendarDay.upsert] on the composite key (listingId, date). *)
Definition calendarDay_upsert (listingId : Z) (date : Js.Date)
    (available : bool) (price : Num.Decimal) (minStay : Num.Number)
  : M CalendarDay :=
  emit (EvCalendarDayUpsert listingId date) ;;;
  let* rows := gets calendarDays in
  let* next := gets nextCalendarDayId in
  let set := fun r : CalendarDay =>
    mkCalendarDay (day_id r) (day_listingId r) (day_date r) available price minStay in
  match find (hasKey listingId date) rows with
  | Some row =>
      modify (withCalendarDays
                (map (fun r => if hasKey listingId date r then set r else r) rows) next) ;;;
      ret (set row)
  | None =>
      let row := mkCalendarDay next listingId date available price minStay in
      modify (withCalendarDays (rows ++ [row]) (next + 1)) ;;;
      ret row
  end.

(** [raw.price ?? raw.nightlyPrice ?? raw.basePrice ?? raw.defaultDailyPrice
     ?? Number(listing.basePrice ?? 0)] *)
Definition basePriceNumber (listing : Listing) (raw : GuestyAvailabilityDay.t)
  : Num.Number :=
  (GuestyAvailabilityDay.price raw ?? GuestyAvailabilityDay.nightlyPrice raw
     ?? GuestyAvailabilityDay.basePrice raw
     ?? GuestyAvailabilityDay.defaultDailyPrice raw)
    ??: match basePrice (listing_attrs listing) with
        | Some d => Num.toNumber d
        | None => Num.ofZ 0
        end.

(** [new Prisma.Decimal(Number.isFinite(basePriceNumber) ? basePriceNumber : 0)] *)
Definition priceDecimal (listing : Listing) (raw : GuestyAvailabilityDay.t)
  : Num.Decimal :=
  let n := basePriceNumber listing raw in
  Num.ofNumber (if Num.isFinite n then n else Num.ofZ 0).

(** The body of [for (const raw of rawDays)]. *)
Fixpoint forEachDay (env : Env) (listing : Listing)
    (rawDays : list GuestyAvailabilityDay.t) (syncedDays : list CalendarDay)
  : M (list CalendarDay) :=
  match rawDays with
  | [] => ret syncedDays
  | raw :: rest =>
      if negb (Js.truthy (GuestyAvailabilityDay.date raw)) then
        forEachDay env listing rest syncedDays
      else
        let dateOnly :=
          startOfDayUtc (Date_parse env (GuestyAvailabilityDay.date raw ??: "")) in
        let available := GuestyAvailabilityDay.available raw ??: true in
        let minStay :=
          (GuestyAvailabilityDay.minimumStay raw ?? GuestyAvailabilityDay.minNights raw
             ?? GuestyAvailabilityDay.minStay raw) ??: Num.ofZ 1 in
        let* day :=
          calendarDay_upsert (listing_id listing) dateOnly available
            (priceDecimal listing raw) minStay in
        forEachDay env listing rest (syncedDays ++ [day])
  end.

Definition syncCalendarForListing (env : Env) (listingId : Z) : M (list CalendarDay) :=
  let* listing := getListingWithHost listingId in
  let hostId := listing_hostId listing in
  let guestyListingId := listing_guestyId listing ??: "" in
  let* accessToken := GuestyToken.getGuestyAccessToken env hostId in
  let* now := Date_now in
  let start := startOfDayUtc (Js.newDate now) in
  let end_ := startOfDayUtc (addMonths start 6) in
  (* [toISOString()] throws a RangeError on an invalid date *)
  match start, end_ with
  | Some startDate, Some endDate =>
      let* data :=
        request env (EvAvailabilityGet guestyListingId startDate endDate)
          (availabilityEndpoint env accessToken guestyListingId startDate endDate) in
      let rawDays :=
        (GuestyAvailabilityResponse.results data ?? GuestyAvailabilityResponse.days data
           ?? GuestyAvailabilityResponse.data data) ??: [] in
      forEachDay env listing rawDays []
  | _, _ => throw RangeError
  end.

End CalendarSync.

(** ** src/routes/webhooks.ts *)

Module Webhooks.

(** A value read from the untyped body: [None] is [undefined]. *)
Definition nullish (v : option Json) : bool :=
  match v with
  | None | Some JNull => true
  | Some _ => false
  end.

(** [a ?? b] on untyped values. *)
Definition orElse (a b : option Json) : option Json :=
  if nullish a then b else a.

(** Own property of a parsed object; [JSON.parse] keeps the last of
    duplicate keys. *)
Fixpoint field (name : string) (fields : list (string * Json)) : option Json :=
  match fields with
  | [] => None
  | (k, v) :: rest =>
      match field name rest with
      | Some v' => Some v'
      | None => if String.eqb k name then Some v else None
      end
  end.

(** [v.name] for a value that is neither [null] nor [undefined]: none of
    the names read here exists on a primitive, an array or a prototype. *)
Definition get (v : Json) (name : string) : option Json :=
  match v with
  | JObj fields => field name fields
  | _ => None
  end.

(** [v?.name] *)
Definition getOpt (v : option Json) (name : string) : option Json :=
  match v with
  | None | Some JNull => None
  | Some j => get j name
  end.

(** Truthiness of an untyped value. *)
Definition truthy (v : option Json) : bool :=
  match v with
  | None | Some JNull => false
  | Some (JBool b) => b
  | Some (JNum repr) => negb (String.eqb repr "0")
  | Some (JStr s) => Js.truthyString s
  | Some (JArr _) | Some (JObj _) => true
  end.

(** [v.toString()]; [None] is the TypeError raised when a parsed object
    carries a [toString] member of its own, which is never callable.
    Inside an array, [null] prints as the empty string. *)
Fixpoint toString (v : Json) : option string :=
  match v with
  | JNull => Some ""
  | JBool b => Some (if b then "true" else "false")
  | JNum repr => Some repr
  | JStr s => Some s
  | JArr items =>
      (fix join (l : list Json) : option string :=
         match l with
         | [] => Some ""
         | [x] => toString x
         | x :: rest =>
             match toString x, join rest with
             | Some a, Some b => Some (a ++ "," ++ b)%string
             | _, _ => None
             end
         end) items
  | JObj fields =>
      match field "toString" fields with
      | Some _ => None
      | None => Some "[object Object]"
      end
  end.

Definition LISTING_EVENTS : list string :=
  ["listing.created"; "listing.updated"].

Definition RESERVATION_EVENTS : list string :=
  ["reservation.created"; "reservation.updated"; "reservation.cancelled"].

Definition has (set : list string) (s : string) : bool :=
  existsb (String.eqb s) set.

Definition hasAccountId (accountId : string) (h : Host) : bool :=
  bool_decide (guestyAccountId h = Some accountId).

(** [prisma.host.findUnique({ where: { guestyAccountId }, select: { id } })].
    The client validates its arguments: anything but a string is refused. *)
Definition host_findByAccountId (accountId : Json) : M (option Z) :=
  match accountId with
  | JStr s =>
      gets (fun w =>
        host_id <$> find (hasAccountId s) (snd <$> map_to_list (hosts w)))
  | _ => throw PrismaValidationError
  end.

(** [prisma.listing.findUnique({ where: { guestyId }, select: { id } })] *)
Definition listing_findByGuestyId (guestyId : Json) : M (option Z) :=
  match guestyId with
  | JStr s =>
      gets (fun w => listing_id <$> find (ListingSync.hasGuestyId s) (listings w))
  | _ => throw PrismaValidationError
  end.

Definition resolveHostIdFromPayload (body : Json) : M (option Z) :=
  let accountId :=
    orElse (get body "accountId")
      (orElse (get body "account_id")
         (orElse (get body "integrationId")
            (orElse (get body "integration_id")
               (orElse (get body "account") (get body "accountID"))))) in
  if negb (truthy accountId) then ret None
  else
    match accountId with
    | Some a => host_findByAccountId a
    | None => ret None
    end.

Definition extractGuestyListingId (body : Json) : option Json :=
  let fromListing :=
    orElse (getOpt (get body "listing") "_id")
      (orElse (getOpt (get body "listing") "id")
         (orElse (get body "listingId") (get body "listing_id"))) in
  let fromReservation :=
    orElse (getOpt (getOpt (get body "reservation") "listing") "_id")
      (orElse (getOpt (getOpt (get body "reservation") "listing") "id")
         (orElse (getOpt (get body "reservation") "listingId")
            (getOpt (get body "reservation") "listing_id"))) in
  let topLevel := orElse (get body "_id") (get body "id") in
  orElse fromListing (orElse fromReservation (orElse topLevel (Some JNull))).

(** [req.body] as the route finds it. For a buffer or a string the field
    is what [JSON.parse] makes of the text, [None] when it throws. *)
Inductive RawBody :=
| BodyBuffer (parsed : option Json)
| BodyString (parsed : option Json)
| BodyValue (value : option Json).

Definition parseBody (raw : RawBody) : Json :=
  match raw with
  | BodyBuffer (Some j) | BodyString (Some j) => j
  | BodyBuffer None | BodyString None => JObj []
  | BodyValue v => if nullish v then JObj [] else v ??: JObj []
  end.

(** [(body.event ?? body.type ?? "").toString()]. Reading a property of
    [null] raises a TypeError. *)
Definition eventTypeOf (body : Json) : M string :=
  match body with
  | JNull => throw TypeError
  | _ =>
      match orElse (get body "event") (orElse (get body "type") (Some (JStr ""))) with
      | Some v =>
          match toString v with
          | Some s => ret s
          | None => throw TypeError
          end
      | None => throw TypeError
      end
  end.

(** [void syncQueue.add(name, data)] *)
Definition enqueue (job : Job) : M unit :=
  modify (fun w => withQueue (queue w ++ [job]) w).

Inductive Response := Respond (status : Z) (json : Json).

Definition dispatch (body : Json) (eventType : string) : M unit :=
  if has LISTING_EVENTS eventType then
    let* hostId := resolveHostIdFromPayload body in
    let guestyListingId := extractGuestyListingId body in
    match hostId with
    | Some h =>
        if truthy guestyListingId then
          enqueue (SyncSingleListing h (guestyListingId ??: JNull))
        else ret tt
    | None => ret tt
    end
  else if has RESERVATION_EVENTS eventType then
    let guestyListingId := extractGuestyListingId body in
    if truthy guestyListingId then
      let* listing := listing_findByGuestyId (guestyListingId ??: JNull) in
      match listing with
      | Some listingId => enqueue (SyncCalendar listingId)
      | None => ret tt
      end
    else ret tt
  else ret tt.

(** [router.post("/guesty", ...)]. A result [Throw] is a rejection of the
    handler's promise: no response is sent. *)
Definition postGuesty (raw : RawBody) : M Response :=
  let body := parseBody raw in
  let* eventType := eventTypeOf body in
  tryCatch (dispatch body eventType) (fun _ => ret tt) ;;;
  ret (Respond 200 (JObj [("ok", JBool true)])).

End Webhooks.


(** ** src/jobs/syncQueue.ts *)

Module SyncQueue.

(** [where: { guestyAccountId: { not: null }, guestyRefreshToken: { not: null } }] *)
Definition connected (h : Host) : bool :=
  match guestyAccountId h, guestyRefreshToken h with
  | Some _, Some _ => true
  | _, _ => false
  end.

(** [prisma.host.findMany({ where, select: { id: true } })] *)
Definition host_findManyConnected : M (list Z) :=
  gets (fun w => host_id <$> List.filter connected (snd <$> map_to_list (hosts w))).

(** [for (const host of hosts) await syncQueue.add("sync-listings", ...)] *)
Fixpoint forEachHost (hostIds : list Z) : M unit :=
  match hostIds with
  | [] => ret tt
  | hostId :: rest =>
      Webhooks.enqueue (SyncListings hostId) ;;;
      forEachHost rest
  end.

(** The processor of the ["sync-all-hosts"] jobs. *)
Definition syncAllHosts : M unit :=
  let* hostIds := host_findManyConnected in
  forEachHost hostIds.

End SyncQueue.
(** * Vocabulary of the properties *)

(** ** Token manager *)

Module TokenSpec.
Import GuestyToken.

Section WithEnv.
Variable env : Env.

(** The refresh grant request for a host, and the vendor's answer. *)
Definition grant (host : Host) : option GuestyTokenResponse :=
  tokenEndpoint env (guestyRefreshToken host ??: "")
    (GUESTY_CLIENT_ID env ??: "") (GUESTY_CLIENT_SECRET env ??: "").

Definition configured : bool :=
  Js.truthy (GUESTY_CLIENT_ID env) && Js.truthy (GUESTY_CLIENT_SECRET env).

(** The world once the grant request has come back. *)
Definition afterGrant (host : Host) (w : World) : World :=
  withClock (clock w + networkDelay env)
    (withTrace (trace w ++ [EvTokenGrant (guestyRefreshToken host ??: "")]) w).

(** The credential row written on a successful refresh. *)
Definition refreshed (host : Host) (data : GuestyTokenResponse) (now' : Z) : Host :=
  mkHost (host_id host) (guestyAccountId host)
    (access_token data)
    (refresh_token data ?? guestyRefreshToken host)
    (token_type data ?? guestyTokenType host)
    (scope data ?? guestyScope host)
    (match expires_in data with
     | Some n => Some (Js.newDate (now' + n * 1000))
     | None => guestyExpiresAt host
     end).

Definition afterWrite (hostId : Z) (host : Host) (data : GuestyTokenResponse)
    (w : World) : World :=
  let w1 := afterGrant host w in
  withHosts (insert hostId (refreshed host data (clock w1)))
    (withTrace (trace w1 ++ [EvHostUpdate hostId]) w1).

(** Every way a call can end. *)
Inductive TokenOutcome (hostId : Z) (w : World) : Result string * World → Prop :=
| OutNoHost :
    hosts w !! hostId = None →
    TokenOutcome hostId w (Throw (HostNotFound hostId), w)
| OutStored host :
    hosts w !! hostId = Some host →
    tokenStillValid host (clock w) = true →
    TokenOutcome hostId w (Ok (guestyAccessToken host ??: ""), w)
| OutNoRefreshToken host :
    hosts w !! hostId = Some host →
    tokenStillValid host (clock w) = false →
    Js.truthy (guestyRefreshToken host) = false →
    TokenOutcome hostId w (Throw (MissingRefreshToken hostId), w)
| OutNotConfigured host :
    hosts w !! hostId = Some host →
    tokenStillValid host (clock w) = false →
    Js.truthy (guestyRefreshToken host) = true →
    configured = false →
    TokenOutcome hostId w (Throw MissingClientCredentials, w)
| OutRejected host :
    hosts w !! hostId = Some host →
    tokenStillValid host (clock w) = false →
    Js.truthy (guestyRefreshToken host) = true →
    configured = true →
    grant host = None →
    TokenOutcome hostId w (Throw AxiosError, afterGrant host w)
| OutNoAccessToken host data :
    hosts w !! hostId = Some host →
    tokenStillValid host (clock w) = false →
    Js.truthy (guestyRefreshToken host) = true →
    configured = true →
    grant host = Some data →
    Js.truthy (access_token data) = false →
    TokenOutcome hostId w (Throw MissingAccessToken, afterGrant host w)
| OutRefreshed host data :
    hosts w !! hostId = Some host →
    tokenStillValid host (clock w) = false →
    Js.truthy (guestyRefreshToken host) = true →
    configured = true →
    grant host = Some data →
    Js.truthy (access_token data) = true →
    TokenOutcome hostId w (Ok (access_token data ??: ""), afterWrite hostId host data w).

End WithEnv.

(** Writes to the credential store recorded in a trace. *)
Definition isHostUpdate (e : Event) : bool :=
  match e with EvHostUpdate _ => true | _ => false end.

Definition hostWrites (tr : list Event) : nat := length (List.filter isHostUpdate tr).

(** Refresh grants recorded in a trace. *)
Definition isTokenGrant (e : Event) : bool :=
  match e with EvTokenGrant _ => true | _ => false end.

Definition tokenGrants (tr : list Event) : nat := length (List.filter isTokenGrant tr).

(** The events the token manager can produce. *)
Definition isTokenEvent (e : Event) : bool :=
  match e with EvTokenGrant _ | EvHostUpdate _ => true | _ => false end.

(** The invariant of the data model: an access token comes with an expiry. *)
Definition tokenHasExpiry (h : Host) : Prop :=
  guestyAccessToken h ≠ None → guestyExpiresAt h ≠ None.

End TokenSpec.

(** ** Concrete worlds and vendors, for evaluating the code *)

Module Examples.

Definition emptyWorld : World := mkWorld ∅ [] 1 [] 1 [] 0 [].

(** A vendor that answers nothing: every request is rejected. *)
Definition silentEnv : Env :=
  mkEnv (Some "client") (Some "secret")
    (fun _ _ _ => None) (fun _ _ _ => None) (fun _ _ => None)
    (fun _ _ _ _ => None) (fun _ => None) 40.

Definition withTokenEndpoint (answer : GuestyTokenResponse) (env : Env) : Env :=
  mkEnv (GUESTY_CLIENT_ID env) (GUESTY_CLIENT_SECRET env)
    (fun _ _ _ => Some answer) (listingsEndpoint env) (listingEndpoint env)
    (availabilityEndpoint env) (Date_parse env) (networkDelay env).

(** A token answer with a lifetime of one hour, and one without lifetime. *)
Definition freshToken : GuestyTokenResponse :=
  mkTokenResponse (Some "fresh") None (Some "Bearer") None (Some 3600).

Definition tokenWithoutLifetime : GuestyTokenResponse :=
  mkTokenResponse (Some "fresh") None None None None.

Definition worldWithHost (h : Host) (now : Z) : World :=
  mkWorld {[ host_id h := h ]} [] 1 [] 1 [] now [].

(** Host 1 with a stored token that expires at time [expiry]. *)
Definition hostWithToken (token : string) (expiry : Z) : Host :=
  mkHost 1 (Some "acct-1") (Some token) (Some "refresh-0") (Some "Bearer") None
         (Some (Some expiry)).

(** Host 1 right after linking, before any token was stored. *)
Definition hostWithoutToken : Host :=
  mkHost 1 (Some "acct-1") None (Some "refresh-0") None None None.

End Examples.

(** ** Listing synchronizer *)

Module ListingSpec.
Import ListingSync.

(** A raw record carries a vendor identifier when [extractGuestyId] finds a
    non-empty one: the test [if (!guestyId) continue] of the page loop. *)
Definition hasVendorId (raw : GuestyListing.t) : bool :=
  Js.truthy (extractGuestyId raw).

(** The raw records of a page: [data.results ?? data.data ?? []]. *)
Definition rawListingsOf (data : GuestyListResponse.t) : list GuestyListing.t :=
  (GuestyListResponse.results data ?? GuestyListResponse.data data) ??: [].

(** Number of rows of the listing table under a vendor identifier. *)
Definition countByGuestyId (key : string) (rows : list Listing) : nat :=
  length (List.filter (hasGuestyId key) rows).

(** The unique index on [guestyId]. *)
Definition uniqueGuestyIds (rows : list Listing) : Prop :=
  ∀ key, (countByGuestyId key rows ≤ 1)%nat.

(** Page numbers requested from the vendor, in order. *)
Definition pageRequests (tr : list Event) : list Z :=
  omap (fun e => match e with EvListingsPage p _ => Some p | _ => None end) tr.

(** Keys of the listing upserts, in order. *)
Definition listingUpserts (tr : list Event) : list string :=
  omap (fun e => match e with EvListingUpsert k => Some k | _ => None end) tr.

(** Vendor identifiers of the records of a page that carry one. *)
Definition vendorIds (raws : list GuestyListing.t) : list string :=
  map (fun raw => extractGuestyId raw ??: "") (List.filter hasVendorId raws).

(** The world once a vendor request has come back. *)
Definition afterRequest (env : Env) (e : Event) (w : World) : World :=
  withClock (clock w + networkDelay env) (withTrace (trace w ++ [e]) w).

(** A page reports no page count, or the count [n]. *)
Definition pageCountIs (n : Z) (data : GuestyListResponse.t) : bool :=
  match GuestyListResponse.pages data with
  | None => true
  | Some p => p =? n
  end.

(** The key [syncListingByGuestyId] upserts under. *)
Definition upsertKey (data : GuestyListing.t) (guestyListingId : string) : string :=
  extractGuestyId data ??: guestyListingId.

End ListingSpec.

Module ListingExamples.
Import ListingSync.

(** A vendor record with nothing but (possibly) an identifier. *)
Definition bareListing (id : option string) : GuestyListing.t :=
  GuestyListing.mk id None None None None None None None None None None None
                   None None None None None None None None None.

(** [n] records with distinct one-letter identifiers after [prefix]. *)
Definition records (prefix : string) (n : nat) : list GuestyListing.t :=
  map (fun i => bareListing
                  (Some (prefix ++ String (Ascii.ascii_of_nat (48 + i)) "")%string))
      (seq 0 n).

Definition pageOf (records : list GuestyListing.t) (pages : option Z)
  : GuestyListResponse.t :=
  GuestyListResponse.mk (Some records) None None pages (Some 50).

(** A collection of 113 listings served in pages of 50 without a page
    count; past the last page the vendor serves empty pages. *)
Definition threePages (token : string) (page limit : Z)
  : option GuestyListResponse.t :=
  if page =? 1 then Some (pageOf (records "a" 50) None)
  else if page =? 2 then Some (pageOf (records "b" 50) None)
  else if page =? 3 then Some (pageOf (records "c" 13) None)
  else Some (pageOf [] None).

Definition withListingsEndpoint
    (f : string → Z → Z → option GuestyListResponse.t) (env : Env) : Env :=
  mkEnv (GUESTY_CLIENT_ID env) (GUESTY_CLIENT_SECRET env)
    (tokenEndpoint env) f (listingEndpoint env)
    (availabilityEndpoint env) (Date_parse env) (networkDelay env).

Definition withListingEndpoint
    (f : string → string → option GuestyListing.t) (env : Env) : Env :=
  mkEnv (GUESTY_CLIENT_ID env) (GUESTY_CLIENT_SECRET env)
    (tokenEndpoint env) (listingsEndpoint env) f
    (availabilityEndpoint env) (Date_parse env) (networkDelay env).

(** Host 1 holds a token that stays valid for an hour. *)
Definition linkedWorld : World :=
  Examples.worldWithHost (Examples.hostWithToken "stored" 4600000) 1000000.

(** The vendor answers every single-listing request with [data]. *)
Definition servingListing (data : GuestyListing.t) : Env :=
  withListingEndpoint (fun _ _ => Some data) Examples.silentEnv.

(** A page of ten records; the fourth has no identifier. *)
Definition pageOfTen : list GuestyListing.t :=
  records "x" 3 ++ [bareListing None] ++ records "y" 6.

End ListingExamples.

(** ** Calendar synchronizer *)

#[global] Instance Decimal_eq_dec : EqDecision Num.Decimal.
Proof. solve_decision. Defined.

Module CalendarSpec.
Import CalendarSync.




(** The requested window, from the time the token was obtained. *)
Definition windowStart (now : Z) : Js.Date := startOfDayUtc (Js.newDate now).
Definition windowEnd (now : Z) : Js.Date :=
  startOfDayUtc (addMonths (windowStart now) 6).

(** A decimal that comes back unchanged from its conversion to a number:
    [new Prisma.Decimal(Number(p))] is [p], and [Number(p)] is finite. *)
Definition survivesNumber (p : Num.Decimal) : bool :=
  Num.isFinite (Num.toNumber p)
  && bool_decide (Num.ofNumber (Num.toNumber p) = Num.normalize p).


End CalendarSpec.

Module CalendarExamples.
Import CalendarSync.

Definition digit (c : Ascii.ascii) : option Z :=
  let n := Z.of_nat (Ascii.nat_of_ascii c) in
  if (48 <=? n) && (n <=? 57) then Some (n - 48) else None.

(** [new Date(s)] for the date-only ISO form YYYY-MM-DD; anything else is
    taken as an invalid date here. *)
Definition parseIsoDate (s : string) : Js.Date :=
  match s with
  | String y1 (String y2 (String y3 (String y4 (String "-"%char
      (String m1 (String m2 (String "-"%char (String d1 (String d2 EmptyString))))))))) =>
      match digit y1, digit y2, digit y3, digit y4,
            digit m1, digit m2, digit d1, digit d2 with
      | Some a, Some b, Some c, Some d, Some e, Some f, Some g, Some h =>
          let y := 1000 * a + 100 * b + 10 * c + d in
          let m := 10 * e + f in
          let dt := 10 * g + h in
          if (1 <=? m) && (m <=? 12) && (1 <=? dt) && (dt <=? 31)
          then Js.newDate (daysFromCivil y m dt * msPerDay)
          else None
      | _, _, _, _, _, _, _, _ => None
      end
  | _ => None
  end.

Definition dayOn (date : string) (price : option Num.Number)
  : GuestyAvailabilityDay.t :=
  GuestyAvailabilityDay.mk (Some date) None price None None None None None None.

(** The vendor answers every availability request with [days]. *)
Definition servingDays (days : list GuestyAvailabilityDay.t) : Env :=
  mkEnv (Some "client") (Some "secret")
    (fun _ _ _ => None) (fun _ _ _ => None) (fun _ _ => None)
    (fun _ _ _ _ =>
       Some (GuestyAvailabilityResponse.mk None (Some days) None))
    parseIsoDate 40.

Definition attrsWithPrice (p : option Num.Decimal) : ListingAttrs :=
  mkListingAttrs "Flat" None None None None None None None None None None None
                 None None None (JArr []) [] p.

(** Listing 7 of host 1, linked to the vendor listing "abc123". *)
Definition listingWithPrice (p : option Num.Decimal) : Listing :=
  mkListing 7 (Some "abc123") 1 (attrsWithPrice p).

Definition worldWithListing (l : Listing) : World :=
  mkWorld {[ 1 := Examples.hostWithToken "stored" 4600000 ]}
          [l] 8 [] 1 [] 1000000 [].

End CalendarExamples.

(** ** Webhook route *)

Module WebhookExamples.

(** An event of the given type for the vendor account "unknown-account",
    which no host is linked to, about the vendor listing "abc123". *)
Definition eventFor (eventType : string) : Json :=
  JObj [("event", JStr eventType);
        ("accountId", JStr "unknown-account");
        ("listingId", JStr "abc123")].

(** Host 1 is linked to the account "acct-1" and owns listing 7, which is
    the vendor listing "abc123". *)
Definition world : World :=
  CalendarExamples.worldWithListing (CalendarExamples.listingWithPrice None).

Definition ok : Webhooks.Response :=
  Webhooks.Respond 200 (JObj [("ok", JBool true)]).

End WebhookExamples.

(** ** Vocabulary of the further properties *)

Module TableSpec.
Import ListingSync ListingSpec.

(** What identifies a listing row and its owner: the columns no sync writes
    once the row exists. *)
Definition rowIdentity (r : Listing) : Z * option string * Z :=
  (listing_id r, listing_guestyId r, listing_hostId r).

(** The listing table is well formed: vendor identifiers are unique,
    primary keys are unique and below the next key to hand out. *)
Definition listingTableOk (w : World) : Prop :=
  uniqueGuestyIds (listings w) ∧
  NoDup (map listing_id (listings w)) ∧
  Forall (fun r => listing_id r < nextListingId w) (listings w).

(** [rows'] keeps the rows of [rows]: each is still there, in place, with
    its identity, new rows come after them, every key of [keys] has a row,
    and a row under no key of [keys] is unchanged. *)
Definition keepsRows (keys : list string) (rows rows' : list Listing) : Prop :=
  (∃ added, map rowIdentity rows' = map rowIdentity rows ++ added) ∧
  (∀ k, k ∈ keys → ∃ r, r ∈ rows' ∧ listing_guestyId r = Some k) ∧
  (∀ r, r ∈ rows → (∀ k, k ∈ keys → listing_guestyId r ≠ Some k) → r ∈ rows').

(** What a run of the page loop that started at [page] with the listings
    [synced] has done when it ends with [r] in the world [w']: it requested
    [k] consecutive pages, upserted under [keys], and kept the rest. *)
Definition loopRan (page : Z) (synced : list Listing) (w : World)
    (r : Result (list Listing)) (w' : World) : Prop :=
  ∃ k keys,
    0 < k ∧
    pageRequests (trace w') = pageRequests (trace w) ++ seqZ page k ∧
    listingUpserts (trace w') = listingUpserts (trace w) ++ keys ∧
    keepsRows keys (listings w) (listings w') ∧
    (listingTableOk w → listingTableOk w') ∧
    hosts w' = hosts w ∧ calendarDays w' = calendarDays w ∧ queue w' = queue w ∧
    match r with
    | Ok out => ∃ news, out = synced ++ news ∧ map listing_guestyId news = map Some keys
    | Throw e => e = AxiosError
    end.

(** A vendor whose every page is full and carries no page count. *)
Definition endlessPages (token : string) (page limit : Z)
  : option GuestyListResponse.t :=
  Some (ListingExamples.pageOf (ListingExamples.records "z" 50) None).

(** Two pages are announced; the second request is rejected. *)
Definition secondPageFails (token : string) (page limit : Z)
  : option GuestyListResponse.t :=
  if page =? 1
  then Some (ListingExamples.pageOf (ListingExamples.records "a" 50) (Some 2))
  else None.

(** Four pages of two records each, announced as four pages. *)
Definition fourShortPages (token : string) (page limit : Z)
  : option GuestyListResponse.t :=
  Some (ListingExamples.pageOf (ListingExamples.records "p" 2) (Some 4)).

End TableSpec.

Module TableExamples.
Import ListingSync TableSpec.

(** The vendor serves its listings through [pagesOf]. *)
Definition paging (pagesOf : string → Z → Z → option GuestyListResponse.t) : Env :=
  ListingExamples.withListingsEndpoint pagesOf Examples.silentEnv.

(** Host 1 holds a valid token; the table holds the listing 5 of host 2,
    known to the vendor as "abc123". *)
Definition worldWithForeignListing : World :=
  mkWorld {[ 1 := Examples.hostWithToken "stored" 4600000 ]}
          [mkListing 5 (Some "abc123") 2 (CalendarExamples.attrsWithPrice None)]
          6 [] 1 [] 1000000 [].

End TableExamples.

Module DayTableSpec.
Import CalendarSync CalendarSpec.

(** The composite key of a calendar day. *)
Definition dayKey (r : CalendarDay) : Z * Js.Date := (day_listingId r, day_date r).








End DayTableSpec.

Module DayTableExamples.

(** The vendor sends the same date twice, with two prices. *)
Definition repeatedDate : Env :=
  CalendarExamples.servingDays
    [CalendarExamples.dayOn "2025-01-15" (Some (Num.ofZ 80));
     CalendarExamples.dayOn "2025-01-15" (Some (Num.ofZ 95))].

Definition world : World :=
  CalendarExamples.worldWithListing (CalendarExamples.listingWithPrice None).

End DayTableExamples.

Module WebhookSpec.
Import Webhooks.

(** What a job enqueued by the webhook route refers to. *)
Definition targetExists (w : World) (job : Job) : Prop :=
  match job with
  | SyncSingleListing hostId guestyListingId =>
      truthy (Some guestyListingId) = true ∧
      ∃ k host, hosts w !! k = Some host ∧ host_id host = hostId ∧
                is_Some (guestyAccountId host)
  | SyncCalendar listingId =>
      ∃ listing, listing ∈ listings w ∧ listing_id listing = listingId ∧
                 is_Some (listing_guestyId listing)
  | SyncListings _ | SyncAllHosts => False
  end.

End WebhookSpec.

Module QueueExamples.

(** Host 1 linked to an account, with an empty refresh token and no
    access token. *)
Definition hostWithEmptyRefreshToken : Host :=
  mkHost 1 (Some "acct-1") None (Some "") None None None.

Definition world : World :=
  Examples.worldWithHost hostWithEmptyRefreshToken 1000000.

End QueueExamples.

Module UnlinkedExamples.

(** Listing 7 stored under the empty vendor identifier. *)
Definition world : World :=
  CalendarExamples.worldWithListing
    (mkListing 7 (Some "") 1 (CalendarExamples.attrsWithPrice None)).

End UnlinkedExamples.
(** * Properties *)

(** ** Reasoning about computations *)

Ltac unfold_m :=
  unfold bind, ret, throw, gets, modify, tryCatch, emit, request, Date_now in *.

Lemma bind_ok {A B} (m : M A) (k : A → M B) w a w' :
  m w = (Ok a, w') → bind m k w = k a w'.
Proof. intros H. unfold bind. now rewrite H. Qed.

Lemma bind_throw {A B} (m : M A) (k : A → M B) w e w' :
  m w = (Throw e, w') → bind m k w = (Throw e, w').
Proof. intros H. unfold bind. now rewrite H. Qed.

Lemma truthy_Some s : s ≠ "" → Js.truthy (Some s) = true.
Proof.
  intros H. unfold Js.truthy, Js.truthyString.
  destruct (String.eqb_spec s ""); [contradiction | reflexivity].
Qed.

Lemma truthy_inv o : Js.truthy o = true → ∃ s, o = Some s ∧ s ≠ "".
Proof.
  destruct o as [s|]; simpl; [|discriminate].
  unfold Js.truthyString. destruct (String.eqb_spec s ""); [discriminate|].
  intros _. now exists s.
Qed.

(** ** The model on concrete inputs *)

Section Evaluation.

(** [Number("0.1")] is the double 0x1.999999999999ap-4, and prints back as 0.1. *)
Example number_of_one_tenth :
  Num.toNumber (Num.DecFinite 1 (-1)) = S754_finite false 7205759403792794 (-56).
Proof. reflexivity. Qed.

Example decimal_of_one_tenth :
  Num.ofNumber (Num.toNumber (Num.DecFinite 1 (-1))) = Num.DecFinite 1 (-1).
Proof. now vm_compute. Qed.

(** [0.1 + 0.2] is 0.30000000000000004. *)
Example decimal_of_sum :
  Num.ofNumber (SFadd Num.prec Num.emax (Num.toNumber (Num.DecFinite 1 (-1)))
                  (Num.toNumber (Num.DecFinite 2 (-1))))
  = Num.DecFinite 30000000000000004 (-17).
Proof. now vm_compute. Qed.

(** 2^53 + 1 is not a double: it reads as 2^53. *)
Example number_of_large_integer :
  Num.ofNumber (Num.toNumber (Num.DecFinite 9007199254740993 0))
  = Num.DecFinite 9007199254740992 0.
Proof. now vm_compute. Qed.

(** Everyday prices come back unchanged from their conversion to a number. *)
Example prices_survive :
  forallb CalendarSpec.survivesNumber
    [Num.DecFinite 12000 (-2); Num.DecFinite 9999 (-2); Num.DecFinite 1 (-1);
     Num.DecFinite 123456789 (-2); Num.DecFinite 0 0; Num.DecFinite (-455) (-1)]
  = true.
Proof. now vm_compute. Qed.

Example price_with_21_digits_does_not_survive :
  CalendarSpec.survivesNumber (Num.DecFinite 120000000000000000001 (-18)) = false.
Proof. now vm_compute. Qed.

(** 2024-11-02T21:20:00.123Z starts at 2024-11-02T00:00:00Z. *)
Example startOfDayUtc_example :
  CalendarSync.startOfDayUtc (Some 1730582400123) = Some 1730505600000.
Proof. reflexivity. Qed.

(** A year from 0 to 99 goes through [Date.UTC] as a year of the 1900s:
    0099-12-31 becomes 1999-12-31. *)
Example startOfDayUtc_two_digit_year :
  CalendarSync.startOfDayUtc (Some (-59011459200005)) = Some 946598400000.
Proof. reflexivity. Qed.

(** Six months after 2024-08-31 is "February 31", that is 2025-03-03. *)
Example addMonths_overflow :
  CalendarSync.addMonths (Some 1725062400000) 6 = Some 1740960000000.
Proof. reflexivity. Qed.

(** An array prints as its elements joined by commas, so a one-element
    array holding an event name reads as that event name. *)
Example toString_array :
  Webhooks.toString (JArr [JStr "listing.created"]) = Some "listing.created" ∧
  Webhooks.toString (JArr [JNum "1"; JNull; JStr "x"]) = Some "1,,x" ∧
  Webhooks.toString (JObj [("a", JNull)]) = Some "[object Object]" ∧
  Webhooks.toString (JObj [("toString", JNum "1")]) = None.
Proof. now repeat split. Qed.

Example field_last_duplicate_wins :
  Webhooks.field "id" [("id", JStr "first"); ("id", JStr "second")]
  = Some (JStr "second").
Proof. reflexivity. Qed.

End Evaluation.

(** ** Token manager *)

Section TokenManager.
Import GuestyToken TokenSpec.

Variable env : Env.

Lemma getGuestyAccessToken_outcome hostId w :
  TokenOutcome env hostId w (getGuestyAccessToken env hostId w).
Proof.
  unfold getGuestyAccessToken, host_findUnique, host_update, host_findUnique.
  unfold_m. cbn.
  destruct (hosts w !! hostId) as [host|] eqn:Hhost; [|now apply OutNoHost].
  destruct (tokenStillValid host (clock w)) eqn:Hvalid; [now apply OutStored|].
  destruct (Js.truthy (guestyRefreshToken host)) eqn:Hrefresh; cbn;
    [|eapply OutNoRefreshToken; eauto].
  destruct (Js.truthy (GUESTY_CLIENT_ID env)) eqn:Hid; cbn;
    [|eapply OutNotConfigured; eauto; unfold configured; now rewrite Hid].
  destruct (Js.truthy (GUESTY_CLIENT_SECRET env)) eqn:Hsecret; cbn;
    [|eapply OutNotConfigured; eauto; unfold configured; now rewrite Hid, Hsecret].
  assert (Hconf : configured env = true)
    by (unfold configured; now rewrite Hid, Hsecret).
  destruct (tokenEndpoint env (guestyRefreshToken host ??: "")
              (GUESTY_CLIENT_ID env ??: "") (GUESTY_CLIENT_SECRET env ??: ""))
    as [data|] eqn:Hgrant; cbn.
  2: { eapply OutRejected; eauto. }
  destruct (Js.truthy (access_token data)) eqn:Haccess; cbn.
  2: { eapply OutNoAccessToken; eauto. }
  rewrite Hhost. cbn. rewrite Haccess. cbn.
  replace (match expires_in data with
           | Some n => Some (Js.newDate (clock w + networkDelay env + n * 1000))
           | None => None
           end ?? guestyExpiresAt host)
    with (match expires_in data with
          | Some n => Some (Js.newDate (clock w + networkDelay env + n * 1000))
          | None => guestyExpiresAt host
          end) by (now destruct (expires_in data)).
  eapply (OutRefreshed env hostId w host data); eauto.
Qed.

End TokenManager.

Section TokenClaims.
Import GuestyToken TokenSpec.

Lemma trace_afterWrite env hostId host data w :
  trace (afterWrite env hostId host data w)
  = trace w ++ [EvTokenGrant (guestyRefreshToken host ??: ""); EvHostUpdate hostId].
Proof. cbn. now rewrite <- app_assoc. Qed.

Lemma app_neq_self {A} (l : list A) x k : l ++ x :: k ≠ l.
Proof.
  intros H. apply (f_equal length) in H. rewrite length_app in H.
  cbn in H. lia.
Qed.

(** C9. A call writes the credential store at most once, and only after
    the vendor exchange has succeeded: the trace grows by a list of events
    holding at most one host update; without one the host table is
    unchanged; with one, the stored token was not usable and the grant was
    answered with an access token; a usable stored token is returned with
    the world untouched; and every call that throws leaves the host table
    as it was. *)
Theorem token_single_write env hostId w :
  let out := getGuestyAccessToken env hostId w in
  ∃ evs,
    trace (snd out) = trace w ++ evs ∧
    (hostWrites evs ≤ 1)%nat ∧
    (hostWrites evs = 0%nat → hosts (snd out) = hosts w) ∧
    (hostWrites evs = 1%nat →
       ∃ host data,
         hosts w !! hostId = Some host ∧
         tokenStillValid host (clock w) = false ∧
         grant env host = Some data ∧
         Js.truthy (access_token data) = true) ∧
    (∀ host, hosts w !! hostId = Some host →
       tokenStillValid host (clock w) = true →
       out = (Ok (guestyAccessToken host ??: ""), w)) ∧
    (∀ e, fst out = Throw e → hosts (snd out) = hosts w).
Proof.
  intros out. subst out.
  destruct (getGuestyAccessToken_outcome env hostId w)
    as [Hh | host Hh Hv | host Hh Hv Hr | host Hh Hv Hr Hc
        | host Hh Hv Hr Hc Hg | host data Hh Hv Hr Hc Hg Ha
        | host data Hh Hv Hr Hc Hg Ha].
  1-4: exists []; cbn; rewrite app_nil_r;
       repeat split; intros; first [lia | discriminate | reflexivity | congruence].
  1-2: exists [EvTokenGrant (guestyRefreshToken host ??: "")]; cbn;
       repeat split; intros; first [lia | discriminate | reflexivity | congruence].
  exists [EvTokenGrant (guestyRefreshToken host ??: ""); EvHostUpdate hostId].
  cbn [fst snd]. rewrite trace_afterWrite. cbn.
  repeat split; try lia; try discriminate.
  - intros _. now exists host, data.
  - intros host' Hh' Hv'. congruence.
Qed.

(** C3, amended. For a credential record with a non-empty access token
    and an expiry timestamp: when the expiry is more than five minutes
    after the current time the stored token is returned and nothing else
    happens; otherwise (for instance with 4 minutes 59 seconds left) the
    call does not end that way: without a stored refresh token it fails
    with MissingRefreshToken, and with one, and client credentials
    configured, it issues the refresh grant. *)
Theorem token_buffer env hostId w host tok t :
  hosts w !! hostId = Some host →
  guestyAccessToken host = Some tok →
  tok ≠ "" →
  guestyExpiresAt host = Some (Some t) →
  let out := getGuestyAccessToken env hostId w in
  (TOKEN_EXPIRY_BUFFER_MS < t - clock w → out = (Ok tok, w)) ∧
  (t - clock w ≤ TOKEN_EXPIRY_BUFFER_MS →
     out ≠ (Ok tok, w) ∧
     (Js.truthy (guestyRefreshToken host) = false →
        out = (Throw (MissingRefreshToken hostId), w)) ∧
     (Js.truthy (guestyRefreshToken host) = true → configured env = true →
        ∃ evs, trace (snd out)
               = trace w ++ EvTokenGrant (guestyRefreshToken host ??: "") :: evs)).
Proof.
  intros Hhost Htok Hne Hexp out.
  assert (Hvalid : tokenStillValid host (clock w)
                   = (TOKEN_EXPIRY_BUFFER_MS <? t - clock w)).
  { unfold tokenStillValid. rewrite Htok, Hexp, (truthy_Some tok Hne). reflexivity. }
  subst out.
  destruct (getGuestyAccessToken_outcome env hostId w)
    as [Hh | host' Hh Hv | host' Hh Hv Hr | host' Hh Hv Hr Hc
        | host' Hh Hv Hr Hc Hg | host' data Hh Hv Hr Hc Hg Ha
        | host' data Hh Hv Hr Hc Hg Ha];
    try congruence;
    assert (host' = host) by congruence; subst host';
    rewrite Hvalid in Hv.
  - apply Z.ltb_lt in Hv. split; [intros _; now rewrite Htok | lia].
  - apply Z.ltb_ge in Hv. split; [lia|]. intros _.
    repeat split; [discriminate | congruence].
  - apply Z.ltb_ge in Hv. split; [lia|]. intros _.
    repeat split; [discriminate | congruence | congruence].
  - apply Z.ltb_ge in Hv. split; [lia|]. intros _.
    repeat split; [discriminate | congruence |].
    intros _ _. now exists [].
  - apply Z.ltb_ge in Hv. split; [lia|]. intros _.
    repeat split; [discriminate | congruence |].
    intros _ _. now exists [].
  - apply Z.ltb_ge in Hv. split; [lia|]. intros _.
    repeat split; [| congruence |].
    + intros H. apply (f_equal (fun p => trace (snd p))) in H.
      cbn [snd] in H. rewrite trace_afterWrite in H.
      now apply app_neq_self in H.
    + intros _ _. exists [EvHostUpdate hostId]. apply trace_afterWrite.
Qed.

(** The stored token of host 1 expires 4 minutes 59 seconds from now. *)
Lemma token_buffer_witness :
  let w := Examples.worldWithHost (Examples.hostWithToken "stored" 1299000) 1000000 in
  let out :=
    getGuestyAccessToken
      (Examples.withTokenEndpoint Examples.freshToken Examples.silentEnv) 1 w in
  (TOKEN_EXPIRY_BUFFER_MS < 1299000 - clock w → out = (Ok "stored", w)) ∧
  (1299000 - clock w ≤ TOKEN_EXPIRY_BUFFER_MS →
     out ≠ (Ok "stored", w) ∧
     (Js.truthy (Some "refresh-0") = false →
        out = (Throw (MissingRefreshToken 1), w)) ∧
     (Js.truthy (Some "refresh-0") = true →
      configured (Examples.withTokenEndpoint Examples.freshToken Examples.silentEnv)
        = true →
        ∃ evs, trace (snd out) = trace w ++ EvTokenGrant "refresh-0" :: evs)).
Proof.
  exact (token_buffer
           (Examples.withTokenEndpoint Examples.freshToken Examples.silentEnv) 1
           (Examples.worldWithHost (Examples.hostWithToken "stored" 1299000) 1000000)
           (Examples.hostWithToken "stored" 1299000) "stored" 1299000
           eq_refl eq_refl ltac:(discriminate) eq_refl).
Defined.

(** C3, as stated, fails for an access token that is not null but empty:
    the expiry lies an hour ahead, yet the call refreshes and returns the
    vendor's new token. *)
Lemma token_buffer_counterexample :
  let host := Examples.hostWithToken "" 4600000 in
  let w := Examples.worldWithHost host 1000000 in
  let out :=
    getGuestyAccessToken
      (Examples.withTokenEndpoint Examples.freshToken Examples.silentEnv) 1 w in
  guestyAccessToken host ≠ None ∧
  guestyExpiresAt host = Some (Some 4600000) ∧
  TOKEN_EXPIRY_BUFFER_MS < 4600000 - clock w ∧
  fst out = Ok "fresh" ∧
  trace (snd out) = [EvTokenGrant "refresh-0"; EvHostUpdate 1].
Proof.
  cbn. repeat split; discriminate.
Qed.

(** With 4 minutes 59 seconds left and no refresh token stored, the call
    fails before any request is made. *)
Lemma token_buffer_no_refresh_token :
  let host := mkHost 1 None (Some "stored") None None None (Some (Some 1299000)) in
  let w := Examples.worldWithHost host 1000000 in
  getGuestyAccessToken Examples.silentEnv 1 w = (Throw (MissingRefreshToken 1), w).
Proof. reflexivity. Qed.

End TokenClaims.

Section TokenExpiry.
Import GuestyToken TokenSpec.

(** C4, amended. The one write of the token manager stores the vendor's
    access token; when the vendor reports a lifetime the stored expiry is
    the time of the write plus that lifetime (in milliseconds), and when
    it reports none the previous expiry is kept. The written record has an
    expiry next to its token whenever the vendor reported a lifetime or the
    record already had an expiry. *)
Theorem refresh_write_expiry env hostId w host data :
  hosts w !! hostId = Some host →
  tokenStillValid host (clock w) = false →
  Js.truthy (guestyRefreshToken host) = true →
  configured env = true →
  grant env host = Some data →
  Js.truthy (access_token data) = true →
  let out := getGuestyAccessToken env hostId w in
  ∃ host',
    fst out = Ok (access_token data ??: "") ∧
    hosts (snd out) = <[hostId := host']> (hosts w) ∧
    guestyAccessToken host' = access_token data ∧
    (∀ n, expires_in data = Some n →
       guestyExpiresAt host' = Some (Js.newDate (clock (snd out) + n * 1000))) ∧
    (expires_in data = None → guestyExpiresAt host' = guestyExpiresAt host) ∧
    (expires_in data ≠ None ∨ guestyExpiresAt host ≠ None → tokenHasExpiry host').
Proof.
  intros Hhost Hvalid Hrefresh Hconf Hgrant Haccess out. subst out.
  destruct (getGuestyAccessToken_outcome env hostId w)
    as [Hh | host' Hh Hv | host' Hh Hv Hr | host' Hh Hv Hr Hc
        | host' Hh Hv Hr Hc Hg | host' data' Hh Hv Hr Hc Hg Ha
        | host' data' Hh Hv Hr Hc Hg Ha];
    try congruence;
    assert (host' = host) by congruence; subst host'; try congruence.
  assert (data' = data) by congruence. subst data'.
  exists (refreshed host data (clock w + networkDelay env)).
  cbn [fst snd]. repeat split.
  - intros n Hn. cbn. now rewrite Hn.
  - intros Hn. cbn. now rewrite Hn.
  - intros Hsome _. cbn.
    destruct (expires_in data) as [n|]; [discriminate|].
    destruct Hsome as [Hsome | Hsome]; [congruence | exact Hsome].
Qed.

Lemma refresh_write_expiry_witness :
  let env := Examples.withTokenEndpoint Examples.freshToken Examples.silentEnv in
  let w := Examples.worldWithHost Examples.hostWithoutToken 1000000 in
  let out := getGuestyAccessToken env 1 w in
  ∃ host',
    fst out = Ok "fresh" ∧
    hosts (snd out) = <[1 := host']> (hosts w) ∧
    guestyAccessToken host' = Some "fresh" ∧
    (∀ n, expires_in Examples.freshToken = Some n →
       guestyExpiresAt host' = Some (Js.newDate (clock (snd out) + n * 1000))) ∧
    (expires_in Examples.freshToken = None →
       guestyExpiresAt host' = guestyExpiresAt Examples.hostWithoutToken) ∧
    (expires_in Examples.freshToken ≠ None
     ∨ guestyExpiresAt Examples.hostWithoutToken ≠ None → tokenHasExpiry host').
Proof.
  exact (refresh_write_expiry
           (Examples.withTokenEndpoint Examples.freshToken Examples.silentEnv) 1
           (Examples.worldWithHost Examples.hostWithoutToken 1000000)
           Examples.hostWithoutToken Examples.freshToken
           eq_refl eq_refl eq_refl eq_refl eq_refl eq_refl).
Defined.

(** C4, as stated, fails when the vendor's answer carries no lifetime and
    the record had no expiry: the record satisfies the invariant before the
    call, the call succeeds, and the record it wrote holds an access token
    without an expiry. *)
Lemma refresh_write_expiry_counterexample :
  let env :=
    Examples.withTokenEndpoint Examples.tokenWithoutLifetime Examples.silentEnv in
  let w := Examples.worldWithHost Examples.hostWithoutToken 1000000 in
  let out := getGuestyAccessToken env 1 w in
  tokenHasExpiry Examples.hostWithoutToken ∧
  fst out = Ok "fresh" ∧
  hostWrites (trace (snd out)) = 1%nat ∧
  ∃ host', hosts (snd out) !! 1 = Some host' ∧
           guestyAccessToken host' = Some "fresh" ∧
           guestyExpiresAt host' = None ∧
           ¬ tokenHasExpiry host'.
Proof.
  cbn. split; [intros H; now contradiction H|].
  split; [reflexivity|]. split; [reflexivity|].
  eexists. split; [reflexivity|]. cbn.
  split; [reflexivity|]. split; [reflexivity|].
  intros H. now apply H.
Qed.

End TokenExpiry.

(** ** Listing synchronizer *)

Section ListingStore.
Import ListingSync ListingSpec.

Lemma applyUpdate_same update row :
  listing_attrs row = update → applyUpdate update row = row.
Proof. intros <-. now destruct row. Qed.

Lemma hasGuestyId_applyUpdate key update row :
  hasGuestyId key (applyUpdate update row) = hasGuestyId key row.
Proof. reflexivity. Qed.

Lemma find_map_update key update rows :
  find (hasGuestyId key)
       (map (fun r => if hasGuestyId key r then applyUpdate update r else r) rows)
  = applyUpdate update <$> find (hasGuestyId key) rows.
Proof.
  induction rows as [|r rows IH]; [reflexivity|]. cbn.
  destruct (hasGuestyId key r) eqn:Hr.
  - now rewrite hasGuestyId_applyUpdate, Hr.
  - now rewrite Hr.
Qed.

Lemma count_map_update key key' update rows :
  countByGuestyId key'
    (map (fun r => if hasGuestyId key r then applyUpdate update r else r) rows)
  = countByGuestyId key' rows.
Proof.
  unfold countByGuestyId.
  induction rows as [|r rows IH]; [reflexivity|]. cbn.
  assert (Hsame : hasGuestyId key'
                    (if hasGuestyId key r then applyUpdate update r else r)
                  = hasGuestyId key' r) by now destruct (hasGuestyId key r).
  rewrite Hsame. destruct (hasGuestyId key' r); cbn; now rewrite IH.
Qed.

Lemma find_none_count key rows :
  find (hasGuestyId key) rows = None → countByGuestyId key rows = 0%nat.
Proof.
  unfold countByGuestyId.
  induction rows as [|r rows IH]; [reflexivity|]. cbn.
  destruct (hasGuestyId key r); [discriminate | exact IH].
Qed.

Lemma find_some_count key rows row :
  find (hasGuestyId key) rows = Some row → (1 ≤ countByGuestyId key rows)%nat.
Proof.
  unfold countByGuestyId.
  induction rows as [|r rows IH]; [discriminate|]. cbn.
  destruct (hasGuestyId key r); cbn; [lia | exact IH].
Qed.

Lemma find_none_existsb key rows :
  find (hasGuestyId key) rows = None → existsb (hasGuestyId key) rows = false.
Proof.
  induction rows as [|r rows IH]; [reflexivity|]. cbn.
  destruct (hasGuestyId key r); [discriminate | exact IH].
Qed.

Lemma count_app key rows rows' :
  countByGuestyId key (rows ++ rows')
  = (countByGuestyId key rows + countByGuestyId key rows')%nat.
Proof. unfold countByGuestyId. now rewrite List.filter_app, length_app. Qed.

Lemma map_update_fixed key update rows :
  (∀ r, r ∈ rows → hasGuestyId key r = true → listing_attrs r = update) →
  map (fun r => if hasGuestyId key r then applyUpdate update r else r) rows = rows.
Proof.
  induction rows as [|r rows IH]; [reflexivity|]. intros H. cbn.
  rewrite IH by (intros r' Hr'; apply H; now right).
  destruct (hasGuestyId key r) eqn:Hr; [|reflexivity].
  rewrite applyUpdate_same; [reflexivity|]. apply H; [now left | exact Hr].
Qed.

(** What an upsert does when the created row would carry the key itself,
    as in both callers. *)
Lemma listing_upsert_spec key create update w :
  create_guestyId create = key →
  ∃ row rows',
    listing_upsert key create update w
    = (Ok row,
       withListings rows'
         (match find (hasGuestyId key) (listings w) with
          | Some _ => nextListingId w
          | None => nextListingId w + 1
          end)
         (withTrace (trace w ++ [EvListingUpsert key]) w)) ∧
    match find (hasGuestyId key) (listings w) with
    | Some old =>
        row = applyUpdate update old ∧
        rows' = map (fun r => if hasGuestyId key r then applyUpdate update r else r)
                    (listings w)
    | None =>
        row = mkListing (nextListingId w) (Some key) (create_hostId create)
                        (create_attrs create) ∧
        rows' = listings w ++ [row]
    end.
Proof.
  intros Hkey. unfold listing_upsert. unfold_m. cbn.
  destruct (find (hasGuestyId key) (listings w)) as [old|] eqn:Hfind.
  - eexists _, _. split; [reflexivity|]. now split.
  - rewrite Hkey, (find_none_existsb _ _ Hfind).
    eexists _, _. split; [reflexivity|]. now split.
Qed.

End ListingStore.

Section TokenFrame.
Import GuestyToken TokenSpec.

(** The token manager touches the host table, the clock and the trace only. *)
Lemma token_frame env hostId w :
  let w' := snd (getGuestyAccessToken env hostId w) in
  listings w' = listings w ∧
  nextListingId w' = nextListingId w ∧
  calendarDays w' = calendarDays w ∧
  nextCalendarDayId w' = nextCalendarDayId w ∧
  queue w' = queue w ∧
  ∃ evs, trace w' = trace w ++ evs ∧ forallb isTokenEvent evs = true.
Proof.
  destruct (getGuestyAccessToken_outcome env hostId w); cbn [snd];
    repeat split; try reflexivity.
  1-4: exists []; now rewrite app_nil_r.
  1-2: now eexists [_].
  eexists [_; _]. split; [apply trace_afterWrite | reflexivity].
Qed.

End TokenFrame.

Section ListingPages.
Import ListingSync ListingSpec.

Lemma request_ok {A} env e (a : A) w :
  request env e (Some a) w = (Ok a, afterRequest env e w).
Proof. reflexivity. Qed.

Lemma request_rejected {A} env e w :
  request env e (@None A) w = (Throw AxiosError, afterRequest env e w).
Proof. reflexivity. Qed.

Lemma filter_forallb {A} (f : A → bool) l :
  forallb f l = true → List.filter f l = l.
Proof.
  induction l as [|x l IH]; [reflexivity|]. cbn.
  destruct (f x); [|discriminate]. intros H. now rewrite IH.
Qed.


(** One page: the records without a vendor identifier are passed over, each
    of the others is upserted under its identifier, and nothing throws. *)
Lemma forEachRaw_spec hostId raws : ∀ synced w,
  ∃ news w',
    forEachRaw hostId raws synced w = (Ok (synced ++ news), w') ∧
    map listing_guestyId news = map extractGuestyId (List.filter hasVendorId raws) ∧
    trace w' = trace w ++ map EvListingUpsert (vendorIds raws) ∧
    hosts w' = hosts w ∧ clock w' = clock w ∧ queue w' = queue w ∧
    calendarDays w' = calendarDays w.
Proof.
  induction raws as [|raw raws IH]; intros synced w.
  - exists [], w. cbn. rewrite !app_nil_r. unfold ret. auto 10.
  - cbn [forEachRaw]. unfold vendorIds. cbn [List.filter].
    change (Js.truthy (extractGuestyId raw)) with (hasVendorId raw).
    destruct (hasVendorId raw) eqn:Hid; cbn [negb].
    + unfold hasVendorId in Hid.
      destruct (mapGuestyListingToPrismaData raw hostId) as [create update] eqn:Hmap.
      assert (Hkey : create_guestyId create = extractGuestyId raw ??: "")
        by (apply (f_equal fst) in Hmap; cbn in Hmap; now subst create).
      destruct (listing_upsert_spec _ create update w Hkey)
        as (row & rows' & Hup & Hrow).
      rewrite (bind_ok _ _ _ _ _ Hup).
      match goal with |- context [forEachRaw _ _ _ ?w1] =>
        destruct (IH (synced ++ [row]) w1)
          as (news & w' & Hrun & Hids & Htrace & Hhosts & Hclock & Hqueue & Hdays)
      end.
      exists (row :: news), w'. rewrite Hrun, <- app_assoc. cbn [app map].
      repeat split; try assumption.
      * f_equal; [|exact Hids].
        apply truthy_inv in Hid as (s & Hs & _). rewrite Hs. cbn.
        destruct (find (hasGuestyId s) (listings w)) as [old|] eqn:Hfind;
          rewrite Hs in Hrow; cbn in Hrow; rewrite Hfind in Hrow;
          destruct Hrow as [-> _]; cbn; [|reflexivity].
        apply find_some in Hfind as [_ Hhas].
        unfold hasGuestyId in Hhas. now apply bool_decide_eq_true in Hhas.
      * rewrite Htrace. cbn. rewrite <- app_assoc. reflexivity.
    + destruct (IH synced w)
        as (news & w' & Hrun & Hids & Htrace & Hhosts & Hclock & Hqueue & Hdays).
      exists news, w'. now repeat split.
Qed.

End ListingPages.

Section ListingClaims.
Import ListingSync ListingSpec.

Lemma listingUpserts_app tr ks :
  listingUpserts (tr ++ map EvListingUpsert ks) = listingUpserts tr ++ ks.
Proof.
  unfold listingUpserts. rewrite omap_app. f_equal.
  induction ks as [|k ks IH]; [reflexivity|]. cbn. now rewrite IH.
Qed.

Lemma pageRequests_upserts tr ks :
  pageRequests (tr ++ map EvListingUpsert ks) = pageRequests tr.
Proof.
  unfold pageRequests. rewrite omap_app.
  replace (omap _ (map EvListingUpsert ks)) with (@nil Z);
    [apply app_nil_r|].
  induction ks as [|k ks IH]; [reflexivity|]. cbn. exact IH.
Qed.

Lemma pageRequests_token tr evs :
  forallb TokenSpec.isTokenEvent evs = true →
  pageRequests (tr ++ evs) = pageRequests tr.
Proof.
  intros H. unfold pageRequests. rewrite omap_app.
  replace (omap _ evs) with (@nil Z); [apply app_nil_r|].
  induction evs as [|e evs IH]; [reflexivity|]. cbn in *.
  apply andb_prop in H as [He Hevs]. destruct e; try discriminate; now apply IH.
Qed.


(** A page of ten records, one of them without identifier, in a store that
    already holds nothing: nine upserts, nine listings, no failure. *)
Lemma page_of_ten :
  ∃ news w',
    forEachRaw 1 ListingExamples.pageOfTen [] ListingExamples.linkedWorld
    = (Ok news, w') ∧
    length news = 9%nat ∧ length (listingUpserts (trace w')) = 9%nat ∧
    length (listings w') = 9%nat.
Proof. eexists _, _. split; [vm_compute; reflexivity|]. now vm_compute. Qed.

(** One turn of the page loop on a page that is not empty. *)
Lemma pageLoop_page fuel env tok hostId page synced w r :
  listingsEndpoint env tok page DEFAULT_PAGE_SIZE = Some r →
  rawListingsOf r ≠ [] →
  ∃ news w2,
    map listing_guestyId news
    = map extractGuestyId (List.filter hasVendorId (rawListingsOf r)) ∧
    trace w2 = (trace w ++ [EvListingsPage page DEFAULT_PAGE_SIZE])
               ++ map EvListingUpsert (vendorIds (rawListingsOf r)) ∧
    pageLoop (S fuel) env tok hostId page synced w
    = if (truthyPages (GuestyListResponse.pages r)
          && (GuestyListResponse.pages r ??: 0 <=? page))
         || (negb (truthyPages (GuestyListResponse.pages r))
             && (Z.of_nat (length (rawListingsOf r)) <? DEFAULT_PAGE_SIZE))
      then Some (Ok (synced ++ news), w2)
      else pageLoop fuel env tok hostId (page + 1) (synced ++ news) w2.
Proof.
  intros Hr Hne.
  destruct (forEachRaw_spec hostId (rawListingsOf r) synced
              (afterRequest env (EvListingsPage page DEFAULT_PAGE_SIZE) w))
    as (news & w2 & Hrun & Hids & Htrace & _).
  exists news, w2. split; [exact Hids|]. split; [exact Htrace|].
  cbn [pageLoop]. rewrite Hr, request_ok.
  fold (rawListingsOf r).
  destruct (rawListingsOf r) as [|raw raws] eqn:Hraws; [contradiction|].
  replace (Z.of_nat (length (raw :: raws)) =? 0) with false
    by (symmetry; apply Z.eqb_neq; cbn [length]; lia).
  rewrite Hrun.
  destruct (truthyPages (GuestyListResponse.pages r)
            && (GuestyListResponse.pages r ??: 0 <=? page)); [reflexivity|].
  cbn [orb].
  now destruct (negb (truthyPages (GuestyListResponse.pages r))
                && (Z.of_nat (length (raw :: raws)) <? DEFAULT_PAGE_SIZE)).
Qed.

End ListingClaims.

Section Pagination.
Import ListingSync ListingSpec.

Lemma pageCountIs_inv n r :
  pageCountIs n r = true →
  GuestyListResponse.pages r = None ∨ GuestyListResponse.pages r = Some n.
Proof.
  unfold pageCountIs. destruct (GuestyListResponse.pages r) as [p|]; [|now left].
  intros H. apply Z.eqb_eq in H. subst. now right.
Qed.

Lemma nonempty_of_length {A} (l : list A) n : length l = S n → l ≠ [].
Proof. now destruct l. Qed.

(** C5. A collection served as pages of 50, 50 and 13 records under the
    limit 50, every record with a vendor identifier, the page count either
    not reported or reported as 3: given a token, the sync issues the page
    requests 1, 2, 3 and no other, and returns 113 listings in the order of
    the pages. Any fuel of three or more iterations gives this result. *)
Theorem three_pages fuel env hostId w tok w0 r1 r2 r3 :
  GuestyToken.getGuestyAccessToken env hostId w = (Ok tok, w0) →
  listingsEndpoint env tok 1 DEFAULT_PAGE_SIZE = Some r1 →
  listingsEndpoint env tok 2 DEFAULT_PAGE_SIZE = Some r2 →
  listingsEndpoint env tok 3 DEFAULT_PAGE_SIZE = Some r3 →
  length (rawListingsOf r1) = 50%nat →
  length (rawListingsOf r2) = 50%nat →
  length (rawListingsOf r3) = 13%nat →
  forallb hasVendorId (rawListingsOf r1 ++ rawListingsOf r2 ++ rawListingsOf r3)
  = true →
  forallb (pageCountIs 3) [r1; r2; r3] = true →
  (3 ≤ fuel)%nat →
  ∃ synced w',
    syncAllListingsForHost fuel env hostId w = Some (Ok synced, w') ∧
    length synced = 113%nat ∧
    map listing_guestyId synced
    = map extractGuestyId (rawListingsOf r1 ++ rawListingsOf r2 ++ rawListingsOf r3) ∧
    pageRequests (trace w') = pageRequests (trace w) ++ [1; 2; 3].
Proof.
  intros Htok H1 H2 H3 L1 L2 L3 Hids Hpages Hfuel.
  destruct fuel as [|[|[|fuel]]]; try lia.
  cbn [forallb] in Hpages. rewrite !andb_true_iff in Hpages.
  destruct Hpages as (P1 & P2 & P3 & _).
  apply pageCountIs_inv in P1, P2, P3.
  rewrite !forallb_app, !andb_true_iff in Hids. destruct Hids as (I1 & I2 & I3).
  unfold syncAllListingsForHost. rewrite Htok.
  destruct (pageLoop_page (S (S fuel)) env tok hostId 1 [] w0 r1 H1
              (nonempty_of_length _ _ L1)) as (n1 & w1 & Hn1 & T1 & ->).
  rewrite L1.
  replace ((truthyPages (GuestyListResponse.pages r1)
            && (GuestyListResponse.pages r1 ??: 0 <=? 1))
           || (negb (truthyPages (GuestyListResponse.pages r1))
               && (Z.of_nat 50 <? DEFAULT_PAGE_SIZE)))
    with false by (destruct P1 as [-> | ->]; reflexivity).
  change (1 + 1) with 2.
  destruct (pageLoop_page (S fuel) env tok hostId 2 ([] ++ n1) w1 r2 H2
              (nonempty_of_length _ _ L2)) as (n2 & w2 & Hn2 & T2 & ->).
  rewrite L2.
  replace ((truthyPages (GuestyListResponse.pages r2)
            && (GuestyListResponse.pages r2 ??: 0 <=? 2))
           || (negb (truthyPages (GuestyListResponse.pages r2))
               && (Z.of_nat 50 <? DEFAULT_PAGE_SIZE)))
    with false by (destruct P2 as [-> | ->]; reflexivity).
  change (2 + 1) with 3.
  destruct (pageLoop_page fuel env tok hostId 3 (([] ++ n1) ++ n2) w2 r3 H3
              (nonempty_of_length _ _ L3)) as (n3 & w3 & Hn3 & T3 & ->).
  rewrite L3.
  replace ((truthyPages (GuestyListResponse.pages r3)
            && (GuestyListResponse.pages r3 ??: 0 <=? 3))
           || (negb (truthyPages (GuestyListResponse.pages r3))
               && (Z.of_nat 13 <? DEFAULT_PAGE_SIZE)))
    with true by (destruct P3 as [-> | ->]; reflexivity).
  rewrite (filter_forallb _ _ I1) in Hn1.
  rewrite (filter_forallb _ _ I2) in Hn2.
  rewrite (filter_forallb _ _ I3) in Hn3.
  exists ((([] ++ n1) ++ n2) ++ n3), w3. cbn [app].
  split; [reflexivity|]. split; [|split].
  - apply (f_equal length) in Hn1, Hn2, Hn3.
    rewrite !length_map in Hn1, Hn2, Hn3.
    rewrite !length_app. lia.
  - now rewrite !map_app, Hn1, Hn2, Hn3, <- app_assoc.
  - rewrite T3, pageRequests_upserts. unfold pageRequests at 1.
    rewrite omap_app. fold (pageRequests (trace w2)).
    rewrite T2, pageRequests_upserts. unfold pageRequests at 1.
    rewrite omap_app. fold (pageRequests (trace w1)).
    rewrite T1, pageRequests_upserts. unfold pageRequests at 1.
    rewrite omap_app. fold (pageRequests (trace w0)).
    destruct (token_frame env hostId w) as (_ & _ & _ & _ & _ & evs & Hevs & Htokev).
    rewrite Htok in Hevs. cbn [snd] in Hevs.
    rewrite Hevs, (pageRequests_token _ _ Htokev). cbn.
    now rewrite <- !app_assoc.
Qed.

Lemma three_pages_witness :
  let env :=
    ListingExamples.withListingsEndpoint ListingExamples.threePages
      Examples.silentEnv in
  ∃ synced w',
    syncAllListingsForHost 5 env 1 ListingExamples.linkedWorld
    = Some (Ok synced, w') ∧
    length synced = 113%nat ∧
    map listing_guestyId synced
    = map extractGuestyId
        (ListingExamples.records "a" 50 ++ ListingExamples.records "b" 50
           ++ ListingExamples.records "c" 13) ∧
    pageRequests (trace w') = pageRequests (trace ListingExamples.linkedWorld) ++ [1; 2; 3].
Proof.
  exact (three_pages 5
           (ListingExamples.withListingsEndpoint ListingExamples.threePages
              Examples.silentEnv)
           1 ListingExamples.linkedWorld "stored" ListingExamples.linkedWorld
           (ListingExamples.pageOf (ListingExamples.records "a" 50) None)
           (ListingExamples.pageOf (ListingExamples.records "b" 50) None)
           (ListingExamples.pageOf (ListingExamples.records "c" 13) None)
           eq_refl eq_refl eq_refl eq_refl eq_refl eq_refl eq_refl eq_refl eq_refl
           ltac:(lia)).
Defined.

End Pagination.

Section SingleListing.
Import ListingSync ListingSpec.

Lemma find_head_filter {A} (f : A → bool) l :
  find f l = head (List.filter f l).
Proof.
  induction l as [|x l IH]; [reflexivity|]. cbn.
  now destruct (f x).
Qed.

Lemma filter_map_update key update rows :
  List.filter (hasGuestyId key)
    (map (fun r => if hasGuestyId key r then applyUpdate update r else r) rows)
  = map (applyUpdate update) (List.filter (hasGuestyId key) rows).
Proof.
  induction rows as [|r rows IH]; [reflexivity|]. cbn.
  destruct (hasGuestyId key r) eqn:Hr.
  - rewrite hasGuestyId_applyUpdate, Hr. cbn. now rewrite IH.
  - now rewrite Hr.
Qed.

Lemma mapped_create_key data hostId :
  create_guestyId (fst (mapGuestyListingToPrismaData data hostId))
  = extractGuestyId data ??: "".
Proof. reflexivity. Qed.

(** Both arguments of the upsert carry the same descriptive columns. *)
Lemma mapped_create_attrs data hostId :
  create_attrs (fst (mapGuestyListingToPrismaData data hostId))
  = snd (mapGuestyListingToPrismaData data hostId).
Proof. reflexivity. Qed.

(** The steps of [syncListingByGuestyId]. *)
Lemma syncListing_run env hostId gid w :
  syncListingByGuestyId env hostId gid w
  = match GuestyToken.getGuestyAccessToken env hostId w with
    | (Throw e, w0) => (Throw e, w0)
    | (Ok tok, w0) =>
        match listingEndpoint env tok gid with
        | None => (Throw AxiosError, afterRequest env (EvListingGet gid) w0)
        | Some data =>
            listing_upsert (upsertKey data gid)
              (mkCreate (upsertKey data gid) hostId
                 (snd (mapGuestyListingToPrismaData data hostId)))
              (snd (mapGuestyListingToPrismaData data hostId))
              (afterRequest env (EvListingGet gid) w0)
        end
    end.
Proof.
  unfold syncListingByGuestyId. unfold bind at 1.
  destruct (GuestyToken.getGuestyAccessToken env hostId w) as [[tok|e] w0];
    [|reflexivity].
  unfold bind at 1.
  destruct (listingEndpoint env tok gid) as [data|]; reflexivity.
Qed.

(** After an upsert there is one row under the key: the row returned. *)
Lemma upsert_establishes key create update w row w' :
  (countByGuestyId key (listings w) ≤ 1)%nat →
  create_guestyId create = key →
  create_attrs create = update →
  listing_upsert key create update w = (Ok row, w') →
  List.filter (hasGuestyId key) (listings w') = [row] ∧
  listing_attrs row = update ∧
  listing_guestyId row = Some key ∧
  trace w' = trace w ++ [EvListingUpsert key].
Proof.
  intros Hcount Hkey Hattrs Hrun.
  destruct (listing_upsert_spec key create update w Hkey)
    as (row0 & rows' & Hup & Hrow).
  rewrite Hup in Hrun. inversion Hrun; subst row0 w'; clear Hrun. cbn.
  destruct (find (hasGuestyId key) (listings w)) as [old|] eqn:Hfind;
    destruct Hrow as [Hrow ->].
  - rewrite filter_map_update.
    pose proof Hfind as Hhead. rewrite find_head_filter in Hhead.
    unfold countByGuestyId in Hcount.
    destruct (List.filter (hasGuestyId key) (listings w)) as [|x [|y rest]];
      cbn in Hhead, Hcount; try discriminate; try lia.
    inversion Hhead; subst x. cbn. rewrite Hrow.
    repeat split.
    apply find_some in Hfind as [_ Hhas].
    unfold hasGuestyId in Hhas. now apply bool_decide_eq_true in Hhas.
  - rewrite List.filter_app.
    pose proof (find_none_count _ _ Hfind) as Hzero. unfold countByGuestyId in Hzero.
    apply nil_length_inv in Hzero. rewrite Hzero, Hrow. cbn.
    unfold hasGuestyId at 1. cbn. rewrite bool_decide_eq_true_2 by reflexivity.
    now repeat split.
Qed.

(** Upserting again the columns the row under the key already has. *)
Lemma upsert_again key create update w row :
  List.filter (hasGuestyId key) (listings w) = [row] →
  listing_attrs row = update →
  ∃ w', listing_upsert key create update w = (Ok row, w') ∧
        listings w' = listings w ∧ nextListingId w' = nextListingId w.
Proof.
  intros Hfilter Hattrs.
  assert (Hfind : find (hasGuestyId key) (listings w) = Some row)
    by (now rewrite find_head_filter, Hfilter).
  unfold listing_upsert. unfold_m. cbn. rewrite Hfind.
  eexists. split; [now rewrite (applyUpdate_same _ _ Hattrs)|]. cbn.
  split; [|reflexivity].
  apply map_update_fixed. intros r Hin Hhas.
  assert (Hr : r ∈ List.filter (hasGuestyId key) (listings w)).
  { apply list_elem_of_In, List.filter_In. split; [now apply list_elem_of_In | exact Hhas]. }
  rewrite Hfilter in Hr. apply list_elem_of_singleton in Hr. now subst r.
Qed.

End SingleListing.

Section SingleListingClaims.
Import ListingSync ListingSpec.

(** C1. In a store whose vendor identifiers are unique, after a successful
    [syncListingByGuestyId] a second call for which the vendor serves the
    same listing payload leaves the listing table as it was: the one row
    under the vendor identifier is the listing the first call returned, and
    the second call, once it has its token, returns that same listing. *)
Theorem syncListing_idempotent env env' hostId gid w l1 w1 :
  uniqueGuestyIds (listings w) →
  syncListingByGuestyId env hostId gid w = (Ok l1, w1) →
  (∀ tok tok', listingEndpoint env' tok' gid = listingEndpoint env tok gid) →
  let out2 := syncListingByGuestyId env' hostId gid w1 in
  listings (snd out2) = listings w1 ∧
  (∀ tok, fst (GuestyToken.getGuestyAccessToken env' hostId w1) = Ok tok →
          fst out2 = Ok l1) ∧
  (∀ l2, fst out2 = Ok l2 → l2 = l1) ∧
  ∃ key, listing_guestyId l1 = Some key ∧
         List.filter (hasGuestyId key) (listings (snd out2)) = [l1].
Proof.
  intros Huniq Hfirst Hsame out2. subst out2.
  rewrite syncListing_run in Hfirst.
  destruct (GuestyToken.getGuestyAccessToken env hostId w) as [[tok|e] w0] eqn:Htok;
    [|discriminate].
  destruct (listingEndpoint env tok gid) as [data|] eqn:Hdata; [|discriminate].
  pose proof (token_frame env hostId w) as (Hl0 & _). rewrite Htok in Hl0.
  cbn [snd] in Hl0.
  apply upsert_establishes in Hfirst as (Hone & Hattrs & Hgid & _);
    [| cbn; rewrite Hl0; apply Huniq | reflexivity | reflexivity].
  rewrite syncListing_run.
  pose proof (token_frame env' hostId w1) as (Hl1 & _).
  destruct (GuestyToken.getGuestyAccessToken env' hostId w1) as [[tok'|e'] w1'];
    cbn [snd fst] in *.
  - rewrite (Hsame tok tok'), Hdata.
    destruct (upsert_again (upsertKey data gid)
                (mkCreate (upsertKey data gid) hostId
                   (snd (mapGuestyListingToPrismaData data hostId)))
                (snd (mapGuestyListingToPrismaData data hostId))
                (afterRequest env' (EvListingGet gid) w1') l1)
      as (w2 & Hrun & Hl2 & _); [cbn; now rewrite Hl1 | exact Hattrs |].
    rewrite Hrun. cbn [fst snd]. cbn in Hl2. rewrite Hl2, Hl1.
    repeat split; [congruence|]. now exists (upsertKey data gid).
  - rewrite Hl1. repeat split; try discriminate.
    now exists (upsertKey data gid).
Qed.

Lemma syncListing_idempotent_witness :
  let env := ListingExamples.servingListing (ListingExamples.bareListing (Some "abc123")) in
  let first := syncListingByGuestyId env 1 "abc123" ListingExamples.linkedWorld in
  let l1 := mkListing 1 (Some "abc123") 1
              (snd (mapGuestyListingToPrismaData
                      (ListingExamples.bareListing (Some "abc123")) 1)) in
  let out2 := syncListingByGuestyId env 1 "abc123" (snd first) in
  listings (snd out2) = listings (snd first) ∧
  (∀ tok, fst (GuestyToken.getGuestyAccessToken env 1 (snd first)) = Ok tok →
          fst out2 = Ok l1) ∧
  (∀ l2, fst out2 = Ok l2 → l2 = l1) ∧
  ∃ key, listing_guestyId l1 = Some key ∧
         List.filter (hasGuestyId key) (listings (snd out2)) = [l1].
Proof.
  exact (syncListing_idempotent
           (ListingExamples.servingListing (ListingExamples.bareListing (Some "abc123")))
           (ListingExamples.servingListing (ListingExamples.bareListing (Some "abc123")))
           1 "abc123" ListingExamples.linkedWorld _ _
           (fun key => le_S 0 0 (le_n 0)) eq_refl (fun _ _ => eq_refl)).
Defined.

(** C2, amended. The key of the upsert is the identifier the vendor's
    payload reports ([_id], else [id]); the identifier of the request is
    used only when the payload reports none. The listing returned carries
    the key. *)
Theorem upsert_key env hostId gid w l w' :
  syncListingByGuestyId env hostId gid w = (Ok l, w') →
  ∃ tok data,
    listingEndpoint env tok gid = Some data ∧
    listingUpserts (trace w') = listingUpserts (trace w) ++ [upsertKey data gid] ∧
    listing_guestyId l = Some (upsertKey data gid) ∧
    (extractGuestyId data = None → upsertKey data gid = gid) ∧
    (∀ i, extractGuestyId data = Some i → upsertKey data gid = i).
Proof.
  intros Hrun. rewrite syncListing_run in Hrun.
  pose proof (token_frame env hostId w) as (_ & _ & _ & _ & _ & evs & Hevs & Htokev).
  destruct (GuestyToken.getGuestyAccessToken env hostId w) as [[tok|e] w0];
    [|discriminate].
  destruct (listingEndpoint env tok gid) as [data|] eqn:Hdata; [|discriminate].
  exists tok, data. split; [exact Hdata|].
  destruct (listing_upsert_spec (upsertKey data gid)
              (mkCreate (upsertKey data gid) hostId
                 (snd (mapGuestyListingToPrismaData data hostId)))
              (snd (mapGuestyListingToPrismaData data hostId))
              (afterRequest env (EvListingGet gid) w0) eq_refl)
    as (row & rows' & Hup & Hrow).
  rewrite Hup in Hrun. inversion Hrun; subst row w'; clear Hrun.
  cbn [snd] in Hevs. cbn. rewrite Hevs.
  split; [|split; [|split]].
  - unfold listingUpserts. rewrite !omap_app. cbn.
    replace (omap _ evs) with (@nil string); [now rewrite !app_nil_r|].
    clear Hevs. induction evs as [|ev evs IH]; [reflexivity|]. cbn in *.
    apply andb_prop in Htokev as [Hev Hrest].
    destruct ev; try discriminate; now apply IH.
  - cbn in Hrow.
    destruct (find (hasGuestyId (upsertKey data gid)) (listings w0)) as [old|] eqn:Hfind;
      destruct Hrow as [-> _]; [|reflexivity].
    apply find_some in Hfind as [_ Hhas].
    unfold hasGuestyId in Hhas. now apply bool_decide_eq_true in Hhas.
  - unfold upsertKey. now intros ->.
  - unfold upsertKey. now intros i ->.
Qed.

Lemma upsert_key_witness :
  ∃ tok data,
    listingEndpoint (ListingExamples.servingListing (ListingExamples.bareListing None))
      tok "abc123" = Some data ∧
    listingUpserts
      (trace (snd (syncListingByGuestyId
                     (ListingExamples.servingListing (ListingExamples.bareListing None))
                     1 "abc123" ListingExamples.linkedWorld)))
    = listingUpserts (trace ListingExamples.linkedWorld) ++ [upsertKey data "abc123"] ∧
    listing_guestyId
      (mkListing 1 (Some "abc123") 1
         (snd (mapGuestyListingToPrismaData (ListingExamples.bareListing None) 1)))
    = Some (upsertKey data "abc123") ∧
    (extractGuestyId data = None → upsertKey data "abc123" = "abc123") ∧
    (∀ i, extractGuestyId data = Some i → upsertKey data "abc123" = i).
Proof.
  exact (upsert_key
           (ListingExamples.servingListing (ListingExamples.bareListing None))
           1 "abc123" ListingExamples.linkedWorld _ _ eq_refl).
Defined.

(** C2, as stated, fails when the payload reports another identifier than
    the one requested: the listing "abc123" is asked for, the vendor answers
    with a record identified "xyz", and the upsert is keyed "xyz". *)
Lemma upsert_key_counterexample :
  let env := ListingExamples.servingListing (ListingExamples.bareListing (Some "xyz")) in
  let out := syncListingByGuestyId env 1 "abc123" ListingExamples.linkedWorld in
  listingUpserts (trace (snd out)) = ["xyz"] ∧
  (∃ l, fst out = Ok l ∧ listing_guestyId l = Some "xyz") ∧
  countByGuestyId "abc123" (listings (snd out)) = 0%nat ∧
  countByGuestyId "xyz" (listings (snd out)) = 1%nat.
Proof.
  split; [reflexivity|]. split; [eexists; split; reflexivity|].
  split; reflexivity.
Qed.

End SingleListingClaims.

(** ** Calendar synchronizer *)

Section CalendarDays.
Import CalendarSync CalendarSpec.




End CalendarDays.

Section CalendarClaims.
Import CalendarSync CalendarSpec.




(** The same run evaluated: the day of 2025-01-15 is priced 120 exactly. *)
Lemma price_120_exact :
  let listing := CalendarExamples.listingWithPrice (Some (Num.DecFinite 12000 (-2))) in
  let env := CalendarExamples.servingDays [CalendarExamples.dayOn "2025-01-15" None] in
  fst (syncCalendarForListing env 7 (CalendarExamples.worldWithListing listing))
  = Ok [mkCalendarDay 1 7 (Some 1736899200000) true (Num.DecFinite 12 1) (Num.ofZ 1)].
Proof. vm_compute. reflexivity. Qed.




(** The same run evaluated. *)
Lemma price_nan_is_zero :
  let listing := CalendarExamples.listingWithPrice (Some (Num.DecFinite 12000 (-2))) in
  let env :=
    CalendarExamples.servingDays
      [CalendarExamples.dayOn "2025-01-15" (Some S754_nan);
       CalendarExamples.dayOn "2025-01-16" (Some (Num.ofZ 80))] in
  map day_price
    (match fst (syncCalendarForListing env 7 (CalendarExamples.worldWithListing listing)) with
     | Ok days => days
     | Throw _ => []
     end)
  = [Num.zero; Num.DecFinite 8 1].
Proof. vm_compute. reflexivity. Qed.

End CalendarClaims.

(** ** Webhook route *)

Section WebhookClaims.
Import Webhooks.

Lemma eventTypeOf_pure body w : snd (eventTypeOf body w) = w.
Proof.
  unfold eventTypeOf.
  destruct body; try reflexivity;
    match goal with
    | |- context [match ?v with Some _ => _ | None => _ end] =>
        destruct v as [j|]; [destruct (toString j)|]; reflexivity
    end.
Qed.

Lemma host_findByAccountId_pure a w : snd (host_findByAccountId a w) = w.
Proof. now destruct a. Qed.

Lemma listing_findByGuestyId_pure g w : snd (listing_findByGuestyId g w) = w.
Proof. now destruct g. Qed.

Lemma resolveHostIdFromPayload_pure body w :
  snd (resolveHostIdFromPayload body w) = w.
Proof.
  unfold resolveHostIdFromPayload.
  match goal with |- context [truthy ?a] => destruct (truthy a); [|reflexivity] end.
  cbn [negb].
  match goal with
  | |- context [match ?a with Some _ => _ | None => _ end] =>
      destruct a; [apply host_findByAccountId_pure | reflexivity]
  end.
Qed.





(** A request whose body is the JSON text [null]: reading the event type
    throws before the [try] block is entered, and no response is sent. *)
Lemma webhook_null_body w :
  postGuesty (BodyBuffer (Some JNull)) w = (Throw TypeError, w).
Proof. reflexivity. Qed.

(** A listing event with an account identifier that is not a string: the
    store client refuses the lookup, the error is swallowed. *)
Lemma webhook_swallows_errors :
  let body := JObj [("event", JStr "listing.created"); ("accountId", JNum "42");
                    ("listingId", JStr "abc123")] in
  fst (resolveHostIdFromPayload body WebhookExamples.world)
  = Throw PrismaValidationError ∧
  postGuesty (BodyBuffer (Some body)) WebhookExamples.world
  = (Ok WebhookExamples.ok, WebhookExamples.world).
Proof. now vm_compute. Qed.

End WebhookClaims.

(** * Further properties of the code *)

(** ** Dates of the calendar synchronizer *)

Section Dates.
Import CalendarSync CalendarSpec.

Lemma doy_of_month mp doy :
  (153 * mp + 2) / 5 + (doy - (153 * mp + 2) / 5 + 1) - 1 = doy.
Proof. lia. Qed.

(** The day number of the calendar date of a day number is that day number:
    [MakeDay(YearFromTime(t), MonthFromTime(t), DateFromTime(t))] is [Day(t)]. *)
Lemma civil_round_trip z :
  daysFromCivil (fst (fst (civilFromDays z))) (snd (fst (civilFromDays z)))
                (snd (civilFromDays z)) = z.
Proof.
  unfold civilFromDays. cbn [fst snd].
  set (z' := z + 719468).
  set (era := z' / 146097).
  set (doe := z' - era * 146097).
  assert (Hz : z = era * 146097 + doe - 719468) by (subst doe z'; lia).
  assert (Hdoe : 0 <= doe < 146097)
    by (subst doe era; pose proof (Z.mod_pos_bound z' 146097);
        pose proof (Z.div_mod z' 146097); lia).
  clearbody doe. clearbody era. clear z'.
  set (yoe := (doe - doe / 1460 + doe / 36524 - doe / 146096) / 365).
  assert (Hyoe : 0 <= yoe <= 399) by (subst yoe; Z.to_euclidean_division_equations; lia).
  set (doy := doe - (365 * yoe + yoe / 4 - yoe / 100)).
  assert (Hdoy : 0 <= doy <= 365)
    by (subst doy yoe; Z.to_euclidean_division_equations; lia).
  set (mp := (5 * doy + 2) / 153).
  assert (Hmp : 0 <= mp <= 11) by (subst mp; Z.to_euclidean_division_equations; lia).
  assert (Hdoe' : doe = yoe * 365 + yoe / 4 - yoe / 100 + doy) by (subst doy; lia).
  clearbody mp. clearbody doy. clearbody yoe.
  unfold daysFromCivil.
  destruct (mp <? 10) eqn:Hlt.
  - apply Z.ltb_lt in Hlt.
    replace (mp + 3 <=? 2) with false by (symmetry; apply Z.leb_gt; lia).
    replace ((mp + 3 + 9) mod 12) with mp by (Z.to_euclidean_division_equations; lia).
    replace ((yoe + era * 400) / 400) with era by (Z.to_euclidean_division_equations; lia).
    rewrite doy_of_month.
    replace (yoe + era * 400 - era * 400) with yoe by lia. lia.
  - apply Z.ltb_ge in Hlt.
    replace (mp - 9 <=? 2) with true by (symmetry; apply Z.leb_le; lia).
    replace ((mp - 9 + 9) mod 12) with mp by (Z.to_euclidean_division_equations; lia).
    replace (yoe + era * 400 + 1 - 1) with (yoe + era * 400) by lia.
    replace ((yoe + era * 400) / 400) with era by (Z.to_euclidean_division_equations; lia).
    rewrite doy_of_month.
    replace (yoe + era * 400 - era * 400) with yoe by lia. lia.
Qed.

Lemma civil_bounds z :
  1 <= snd (fst (civilFromDays z)) <= 12 ∧ 1 <= snd (civilFromDays z) <= 31.
Proof.
  unfold civilFromDays. cbn [fst snd].
  set (z' := z + 719468).
  set (era := z' / 146097).
  set (doe := z' - era * 146097).
  assert (Hdoe : 0 <= doe < 146097)
    by (subst doe era; pose proof (Z.mod_pos_bound z' 146097);
        pose proof (Z.div_mod z' 146097); lia).
  clearbody doe. clearbody era. clear z'.
  set (yoe := (doe - doe / 1460 + doe / 36524 - doe / 146096) / 365).
  set (doy := doe - (365 * yoe + yoe / 4 - yoe / 100)).
  assert (Hdoy : 0 <= doy <= 365)
    by (subst doy yoe; Z.to_euclidean_division_equations; lia).
  clearbody doy.
  set (mp := (5 * doy + 2) / 153).
  assert (Hmp : 0 <= mp <= 11) by (subst mp; Z.to_euclidean_division_equations; lia).
  split.
  - destruct (mp <? 10) eqn:Hlt; [apply Z.ltb_lt in Hlt | apply Z.ltb_ge in Hlt]; lia.
  - subst mp. Z.to_euclidean_division_equations. lia.
Qed.

Lemma civil_year_lower z : 0 <= z -> 1600 <= fst (fst (civilFromDays z)).
Proof.
  intros Hz. unfold civilFromDays. cbn [fst snd].
  set (z' := z + 719468).
  set (era := z' / 146097).
  set (doe := z' - era * 146097).
  assert (Hera : 4 <= era) by (subst era z'; Z.to_euclidean_division_equations; lia).
  assert (Hdoe : 0 <= doe < 146097)
    by (subst doe era; pose proof (Z.mod_pos_bound z' 146097);
        pose proof (Z.div_mod z' 146097); lia).
  clearbody doe. clearbody era.
  set (yoe := (doe - doe / 1460 + doe / 36524 - doe / 146096) / 365).
  assert (Hyoe : 0 <= yoe <= 399) by (subst yoe; Z.to_euclidean_division_equations; lia).
  clearbody yoe.
  match goal with |- context [if ?c then _ else _] => destruct c end; lia.
Qed.

Lemma daysFromCivil_day y m d :
  daysFromCivil y m d = daysFromCivil y m 1 + d - 1.
Proof. unfold daysFromCivil. lia. Qed.

Lemma makeDay_civil z :
  makeDay (fst (fst (civilFromDays z))) (snd (fst (civilFromDays z)) - 1)
          (snd (civilFromDays z)) = z.
Proof.
  pose proof (civil_bounds z) as [Hm _].
  pose proof (civil_round_trip z) as Hrt.
  unfold makeDay.
  replace ((snd (fst (civilFromDays z)) - 1) / 12) with 0
    by (Z.to_euclidean_division_equations; lia).
  replace ((snd (fst (civilFromDays z)) - 1) mod 12 + 1) with (snd (fst (civilFromDays z)))
    by (Z.to_euclidean_division_equations; lia).
  rewrite Z.add_0_r. rewrite daysFromCivil_day in Hrt. lia.
Qed.

(** Six months on, the first of the month lies 181 to 184 days ahead. *)
Lemma six_months y m :
  1 <= m <= 12 ->
  181 <= daysFromCivil (y + (m - 1 + 6) / 12) ((m - 1 + 6) mod 12 + 1) 1
         - daysFromCivil y m 1 <= 184.
Proof.
  intros Hm.
  assert (Hcases : m = 1 ∨ m = 2 ∨ m = 3 ∨ m = 4 ∨ m = 5 ∨ m = 6 ∨ m = 7 ∨ m = 8
                   ∨ m = 9 ∨ m = 10 ∨ m = 11 ∨ m = 12) by lia.
  unfold daysFromCivil.
  set (q := (m - 1 + 6) / 12). set (M := (m - 1 + 6) mod 12 + 1).
  assert (HM : M = (m - 1 + 6) mod 12 + 1) by reflexivity.
  assert (Hq : q = (m - 1 + 6) / 12) by reflexivity.
  clearbody q M.
  destruct (M <=? 2) eqn:H1; [apply Z.leb_le in H1 | apply Z.leb_gt in H1];
  destruct (m <=? 2) eqn:H2; [apply Z.leb_le in H2 | apply Z.leb_gt in H2
                             |apply Z.leb_le in H2 | apply Z.leb_gt in H2];
  repeat (destruct Hcases as [-> | Hcases]); try subst m;
  try (exfalso; Z.to_euclidean_division_equations; lia);
  Z.to_euclidean_division_equations; lia.
Qed.

Lemma newDate_valid t : Z.abs t <= Js.MAX_TIME → Js.newDate t = Some t.
Proof.
  intros H. unfold Js.newDate.
  now replace (Z.abs t <=? Js.MAX_TIME) with true by (symmetry; now apply Z.leb_le).
Qed.

Lemma newDate_inv t t' : Js.newDate t = Some t' → t' = t.
Proof. unfold Js.newDate. destruct (Z.abs t <=? Js.MAX_TIME); congruence. Qed.

End Dates.

Section DateProperties.
Import CalendarSync CalendarSpec.

Lemma msPerDay_floor t : t = msPerDay * (t / msPerDay) + t mod msPerDay.
Proof. apply Z.div_mod. discriminate. Qed.

Lemma startOfDayUtc_from_epoch u :
  0 <= u <= Js.MAX_TIME → startOfDayUtc (Some u) = Some (u - u mod msPerDay).
Proof.
  intros Hu. unfold startOfDayUtc.
  pose proof (makeDay_civil (u / msPerDay)) as Hday.
  pose proof (civil_year_lower (u / msPerDay)) as Hyear.
  destruct (civilFromDays (u / msPerDay)) as [[y m] dt]. cbn [fst snd] in *.
  assert (0 <= u / msPerDay) by (apply Z.div_pos; [lia | reflexivity]).
  replace ((0 <=? y) && (y <=? 99)) with false
    by (symmetry; apply andb_false_iff; right; apply Z.leb_gt; lia).
  rewrite Hday.
  pose proof (msPerDay_floor u). pose proof (Z.mod_pos_bound u msPerDay eq_refl).
  rewrite newDate_valid by (unfold Js.MAX_TIME, msPerDay in *; lia).
  f_equal. unfold msPerDay in *. lia.
Qed.

Lemma startOfDayUtc_whole_days d t :
  startOfDayUtc d = Some t → t mod msPerDay = 0.
Proof.
  unfold startOfDayUtc. destruct d as [u|]; [|discriminate].
  destruct (civilFromDays (u / msPerDay)) as [[y m] dt].
  intros H. apply newDate_inv in H. subst t.
  apply Z.mod_mul. discriminate.
Qed.

(** X16. From 1970 on, [startOfDayUtc] is the start of the UTC day: the
    time of day is dropped, nothing else, and a second application changes
    nothing. *)
Theorem startOfDayUtc_floor t :
  0 <= t <= Js.MAX_TIME →
  startOfDayUtc (Some t) = Some (t - t mod msPerDay) ∧
  startOfDayUtc (startOfDayUtc (Some t)) = startOfDayUtc (Some t).
Proof.
  pose proof startOfDayUtc_from_epoch as Hfloor.
  intros Ht. split; [now apply Hfloor|].
  rewrite (Hfloor t Ht).
  pose proof (Z.mod_pos_bound t msPerDay eq_refl).
  pose proof (msPerDay_floor t).
  assert (0 <= t / msPerDay) by (apply Z.div_pos; [lia | reflexivity]).
  rewrite Hfloor by (unfold msPerDay in *; lia). f_equal.
  replace (t - t mod msPerDay) with (t / msPerDay * msPerDay)
    by (pose proof (msPerDay_floor t); lia).
  rewrite Z.mod_mul by discriminate. lia.
Qed.

Lemma startOfDayUtc_floor_witness :
  startOfDayUtc (Some 1730582400123) = Some (1730582400123 - 1730582400123 mod msPerDay) ∧
  startOfDayUtc (startOfDayUtc (Some 1730582400123)) = startOfDayUtc (Some 1730582400123).
Proof.
  apply (startOfDayUtc_floor 1730582400123). unfold Js.MAX_TIME. lia.
Defined.

(** X17. Whatever the date, a valid result of [startOfDayUtc] has no time
    component: it is a whole number of days from the epoch. *)
Theorem startOfDayUtc_midnight d t :
  startOfDayUtc d = Some t → t mod msPerDay = 0.
Proof. exact (startOfDayUtc_whole_days d t). Qed.

Lemma startOfDayUtc_midnight_witness : (-86400000) mod msPerDay = 0.
Proof. exact (startOfDayUtc_midnight (Some (-1)) (-86400000) eq_refl). Defined.

(** X18. [addMonths] keeps the time of day, and adding no month gives the
    date back. *)
Theorem addMonths_time_of_day t months t' :
  addMonths (Some t) months = Some t' →
  t' mod msPerDay = t mod msPerDay ∧
  (months = 0 → t' = t).
Proof.
  unfold addMonths.
  pose proof (makeDay_civil (t / msPerDay)) as Hday.
  destruct (civilFromDays (t / msPerDay)) as [[y m] dt]. cbn [fst snd] in Hday.
  intros H. apply newDate_inv in H. subst t'. split.
  - rewrite Z.add_comm, Z.mod_add by discriminate. apply Z.mod_mod. discriminate.
  - intros ->. rewrite Z.add_0_r, Hday. pose proof (msPerDay_floor t). lia.
Qed.

Lemma addMonths_time_of_day_witness :
  1746220800123 mod msPerDay = 1730582400123 mod msPerDay ∧
  (6 = 0 → 1746220800123 = 1730582400123).
Proof. exact (addMonths_time_of_day 1730582400123 6 1746220800123 eq_refl). Defined.

(** X19. For a clock from 1970 on (and 185 days short of the last valid
    date), the window requested from the vendor starts at the UTC midnight
    of the current day and ends at a UTC midnight 181 to 184 days later, so
    both of its dates are valid. *)
Theorem window_six_months now :
  0 <= now →
  now + 185 * msPerDay <= Js.MAX_TIME →
  ∃ startDate endDate,
    windowStart now = Some startDate ∧
    windowEnd now = Some endDate ∧
    startDate <= now < startDate + msPerDay ∧
    startDate mod msPerDay = 0 ∧
    endDate mod msPerDay = 0 ∧
    181 * msPerDay <= endDate - startDate <= 184 * msPerDay.
Proof.
  intros Hnow Hmax.
  assert (Hms : msPerDay = 86400000) by reflexivity.
  pose proof (Z.mod_pos_bound now msPerDay eq_refl) as Hmod.
  pose proof (msPerDay_floor now) as Hnowfloor.
  assert (Hstart : windowStart now = Some (now / msPerDay * msPerDay)).
  { unfold windowStart. rewrite newDate_valid by lia.
    rewrite startOfDayUtc_from_epoch by lia. f_equal. lia. }
  assert (Hz : 0 <= now / msPerDay) by (apply Z.div_pos; lia).
  set (z := now / msPerDay) in *.
  unfold windowEnd. rewrite Hstart. unfold addMonths.
  rewrite Z.div_mul by discriminate. rewrite Z.mod_mul by discriminate.
  pose proof (makeDay_civil z) as Hday. pose proof (civil_bounds z) as [Hm _].
  destruct (civilFromDays z) as [[y m] dt]. cbn [fst snd] in *.
  pose proof (six_months y m Hm) as Hsix.
  set (D := makeDay y (m - 1 + 6) dt).
  assert (HD : 181 <= D - z <= 184).
  { subst D. unfold makeDay in *.
    replace ((m - 1) / 12) with 0 in Hday by (Z.to_euclidean_division_equations; lia).
    replace ((m - 1) mod 12 + 1) with m in Hday by (Z.to_euclidean_division_equations; lia).
    rewrite Z.add_0_r in Hday. lia. }
  clearbody D. rewrite Z.add_0_r.
  rewrite newDate_valid by lia.
  rewrite startOfDayUtc_from_epoch by lia.
  rewrite Z.mod_mul by discriminate. rewrite Z.sub_0_r.
  exists (z * msPerDay), (D * msPerDay).
  repeat split; try reflexivity; try (apply Z.mod_mul; discriminate); lia.
Qed.

Lemma window_six_months_witness :
  ∃ startDate endDate,
    windowStart 1730582400123 = Some startDate ∧
    windowEnd 1730582400123 = Some endDate ∧
    startDate <= 1730582400123 < startDate + msPerDay ∧
    startDate mod msPerDay = 0 ∧
    endDate mod msPerDay = 0 ∧
    181 * msPerDay <= endDate - startDate <= 184 * msPerDay.
Proof.
  apply (window_six_months 1730582400123); unfold Js.MAX_TIME, msPerDay; lia.
Defined.

End DateProperties.

(** ** Token manager, further *)

Section TokenProperties.
Import GuestyToken TokenSpec.

Lemma token_stored env hostId w tok w' :
  getGuestyAccessToken env hostId w = (Ok tok, w') →
  tok ≠ "" ∧
  ∃ host', hosts w' !! hostId = Some host' ∧ guestyAccessToken host' = Some tok.
Proof.
  intros Hrun.
  destruct (getGuestyAccessToken_outcome env hostId w)
    as [Hh | host Hh Hv | host Hh Hv Hr | host Hh Hv Hr Hc
        | host Hh Hv Hr Hc Hg | host data Hh Hv Hr Hc Hg Ha
        | host data Hh Hv Hr Hc Hg Ha];
    try discriminate; inversion Hrun; subst; clear Hrun.
  - unfold tokenStillValid in Hv. apply andb_prop in Hv as [Htok _].
    apply truthy_inv in Htok as (s & Hs & Hne). rewrite Hs. cbn.
    split; [exact Hne|]. exists host. now rewrite Hs in *.
  - apply truthy_inv in Ha as (s & Hs & Hne). rewrite Hs. cbn [Js.coalesceTo].
    split; [exact Hne|]. eexists. split.
    + cbn. apply lookup_insert_eq.
    + cbn. exact Hs.
Qed.

(** X1. A token handed out is never the empty string, and it is the access
    token the host's record holds once the call is over. *)
Theorem token_returned_is_stored env hostId w tok w' :
  getGuestyAccessToken env hostId w = (Ok tok, w') →
  tok ≠ "" ∧
  ∃ host', hosts w' !! hostId = Some host' ∧ guestyAccessToken host' = Some tok.
Proof. exact (token_stored env hostId w tok w'). Qed.

Lemma token_returned_is_stored_witness :
  "fresh" ≠ "" ∧
  ∃ host',
    hosts (snd (getGuestyAccessToken
                  (Examples.withTokenEndpoint Examples.freshToken Examples.silentEnv) 1
                  (Examples.worldWithHost Examples.hostWithoutToken 1000000)))
      !! 1 = Some host' ∧
    guestyAccessToken host' = Some "fresh".
Proof.
  exact (token_returned_is_stored
           (Examples.withTokenEndpoint Examples.freshToken Examples.silentEnv) 1
           (Examples.worldWithHost Examples.hostWithoutToken 1000000) "fresh" _ eq_refl).
Defined.

(** X2. After a successful call that leaves an expiry more than five
    minutes ahead of the clock, the next call at that time returns the same
    token and does nothing else, whatever the vendor would answer. *)
Theorem token_reused env env' hostId w tok w' host' t :
  getGuestyAccessToken env hostId w = (Ok tok, w') →
  hosts w' !! hostId = Some host' →
  guestyExpiresAt host' = Some (Some t) →
  TOKEN_EXPIRY_BUFFER_MS < t - clock w' →
  getGuestyAccessToken env' hostId w' = (Ok tok, w').
Proof.
  intros Hrun Hhost Hexp Hbuf.
  destruct (token_stored env hostId w tok w' Hrun)
    as (Hne & h & Hh & Htok).
  assert (h = host') by congruence. subst h.
  assert (Hvalid : tokenStillValid host' (clock w') = true).
  { unfold tokenStillValid. rewrite Htok, Hexp, (truthy_Some tok Hne).
    cbn. now apply Z.ltb_lt. }
  destruct (getGuestyAccessToken_outcome env' hostId w')
    as [Hh' | h Hh' Hv | h Hh' Hv Hr | h Hh' Hv Hr Hc
        | h Hh' Hv Hr Hc Hg | h data Hh' Hv Hr Hc Hg Ha
        | h data Hh' Hv Hr Hc Hg Ha];
    try congruence;
    assert (h = host') by congruence; subst h; try congruence.
  now rewrite Htok.
Qed.

Lemma token_reused_witness :
  let env := Examples.withTokenEndpoint Examples.freshToken Examples.silentEnv in
  let w' := snd (getGuestyAccessToken env 1
                   (Examples.worldWithHost Examples.hostWithoutToken 1000000)) in
  getGuestyAccessToken Examples.silentEnv 1 w' = (Ok "fresh", w').
Proof.
  exact (token_reused
           (Examples.withTokenEndpoint Examples.freshToken Examples.silentEnv)
           Examples.silentEnv 1
           (Examples.worldWithHost Examples.hostWithoutToken 1000000) "fresh" _
           (mkHost 1 (Some "acct-1") (Some "fresh") (Some "refresh-0") (Some "Bearer")
                   None (Some (Some 4600040)))
           4600040 eq_refl eq_refl eq_refl eq_refl).
Defined.

(** X3. A call changes no other host's record, creates and deletes none,
    and in the record of its own host leaves the identifier and the vendor
    account as they were; a stored refresh token is replaced by the one the
    vendor sends or kept, never dropped. *)
Theorem token_frame_hosts env hostId w :
  let w' := snd (getGuestyAccessToken env hostId w) in
  (∀ other, other ≠ hostId → hosts w' !! other = hosts w !! other) ∧
  (hosts w !! hostId = None → hosts w' !! hostId = None) ∧
  (∀ host, hosts w !! hostId = Some host →
     ∃ host', hosts w' !! hostId = Some host' ∧
              host_id host' = host_id host ∧
              guestyAccountId host' = guestyAccountId host ∧
              (guestyRefreshToken host ≠ None → guestyRefreshToken host' ≠ None)).
Proof.
  destruct (getGuestyAccessToken_outcome env hostId w)
    as [Hh | host Hh Hv | host Hh Hv Hr | host Hh Hv Hr Hc
        | host Hh Hv Hr Hc Hg | host data Hh Hv Hr Hc Hg Ha
        | host data Hh Hv Hr Hc Hg Ha]; cbn [snd].
  1-6: (split; [intros; reflexivity|]; split; [intros Hnone; exact Hnone|];
        intros h Hfound; exists h; cbn; tauto).
  split; [|split].
  - intros other Hother. cbn. now apply lookup_insert_ne.
  - congruence.
  - intros h Hfound. assert (h = host) by congruence. subst h.
    eexists. split; [cbn; apply lookup_insert_eq|]. cbn.
    repeat split. intros Hsome.
    destruct (refresh_token data); [discriminate | exact Hsome].
Qed.

(** X4. The errors a call can raise: an unknown host, a missing refresh
    token, missing client credentials, a rejected grant, or an answer
    without access token. The check made after the write never fails. *)
Theorem token_errors env hostId w e :
  fst (getGuestyAccessToken env hostId w) = Throw e →
  e = HostNotFound hostId ∨ e = MissingRefreshToken hostId ∨
  e = MissingClientCredentials ∨ e = AxiosError ∨ e = MissingAccessToken.
Proof.
  destruct (getGuestyAccessToken_outcome env hostId w); cbn [fst];
    intros Hthrow; inversion Hthrow; subst; auto 6.
Qed.

Lemma token_errors_witness :
  AxiosError = HostNotFound 1 ∨ AxiosError = MissingRefreshToken 1 ∨
  AxiosError = MissingClientCredentials ∨ AxiosError = AxiosError ∨
  AxiosError = MissingAccessToken.
Proof.
  exact (token_errors Examples.silentEnv 1
           (Examples.worldWithHost Examples.hostWithoutToken 1000000) AxiosError eq_refl).
Defined.

End TokenProperties.

(** ** Listing table, further *)

Section ListingTable.
Import ListingSync ListingSpec TableSpec.

Lemma keepsRows_refl keys rows : keys = [] → keepsRows keys rows rows.
Proof.
  intros ->. split; [exists []; now rewrite app_nil_r|].
  split; [intros k Hk; now apply elem_of_nil in Hk | auto].
Qed.

Lemma identity_guestyId_elem rows rows' added k :
  map rowIdentity rows' = map rowIdentity rows ++ added →
  (∃ r, r ∈ rows ∧ listing_guestyId r = Some k) →
  ∃ r, r ∈ rows' ∧ listing_guestyId r = Some k.
Proof.
  intros Hid (r & Hr & Hk).
  assert (Hin : rowIdentity r ∈ map rowIdentity rows')
    by (rewrite Hid; apply elem_of_app; left; now apply list_elem_of_fmap_2).
  apply list_elem_of_fmap in Hin as (r' & Heq & Hr').
  exists r'. split; [exact Hr'|].
  unfold rowIdentity in Heq. inversion Heq. congruence.
Qed.

Lemma keepsRows_trans keys1 keys2 a b c :
  keepsRows keys1 a b → keepsRows keys2 b c → keepsRows (keys1 ++ keys2) a c.
Proof.
  intros ((add1 & H1) & K1 & U1) ((add2 & H2) & K2 & U2).
  split; [|split].
  - exists (add1 ++ add2). now rewrite H2, H1, app_assoc.
  - intros k Hk. apply elem_of_app in Hk as [Hk | Hk]; [|now apply K2].
    eapply identity_guestyId_elem; [exact H2 | now apply K1].
  - intros r Hr Hkeys. apply U2.
    + apply U1; [exact Hr|]. intros k Hk. apply Hkeys, elem_of_app. now left.
    + intros k Hk. apply Hkeys, elem_of_app. now right.
Qed.

Lemma map_identity_update key update rows :
  map rowIdentity
      (map (fun r => if hasGuestyId key r then applyUpdate update r else r) rows)
  = map rowIdentity rows.
Proof.
  induction rows as [|r rows IH]; [reflexivity|]. cbn. rewrite IH.
  now destruct (hasGuestyId key r).
Qed.

Lemma map_id_update key update rows :
  map listing_id
      (map (fun r => if hasGuestyId key r then applyUpdate update r else r) rows)
  = map listing_id rows.
Proof.
  induction rows as [|r rows IH]; [reflexivity|]. cbn. rewrite IH.
  now destruct (hasGuestyId key r).
Qed.

Lemma hasGuestyId_true key r : hasGuestyId key r = true ↔ listing_guestyId r = Some key.
Proof. unfold hasGuestyId. apply bool_decide_eq_true. Qed.

(** What one upsert does to the table, when the row it would create
    carries the key. *)
Lemma listing_upsert_keeps key create update w :
  create_guestyId create = key →
  let out := listing_upsert key create update w in
  (∃ row, fst out = Ok row) ∧
  keepsRows [key] (listings w) (listings (snd out)) ∧
  (listingTableOk w → listingTableOk (snd out)) ∧
  hosts (snd out) = hosts w ∧ calendarDays (snd out) = calendarDays w ∧
  queue (snd out) = queue w.
Proof.
  intros Hkey out. subst out.
  destruct (listing_upsert_spec key create update w Hkey)
    as (row & rows' & Hup & Hrow).
  rewrite Hup. cbn [fst snd]. split; [now exists row|].
  destruct (find (hasGuestyId key) (listings w)) as [old|] eqn:Hfind;
    destruct Hrow as [Hrow ->]; unfold listingTableOk;
    cbn [listings nextListingId hosts calendarDays queue withListings withTrace].
  - split; [|split; [|now repeat split]].
    + split; [exists []; now rewrite map_identity_update, app_nil_r|]. split.
      * intros k Hk. apply list_elem_of_singleton in Hk. subst k.
        apply find_some in Hfind as [Hin Hhas].
        exists (applyUpdate update old). split.
        -- apply list_elem_of_In, in_map_iff. exists old. now rewrite Hhas.
        -- now apply hasGuestyId_true in Hhas.
      * intros r Hr Hother. apply list_elem_of_In, in_map_iff. exists r.
        split; [|now apply list_elem_of_In].
        destruct (hasGuestyId key r) eqn:Hhas; [|reflexivity].
        apply hasGuestyId_true in Hhas. exfalso.
        apply (Hother key); [apply list_elem_of_singleton; reflexivity | exact Hhas].
    + intros (Huniq & Hnodup & Hbelow). split; [|split].
      * intros k. rewrite count_map_update. apply Huniq.
      * now rewrite map_id_update.
      * apply Forall_forall. intros r Hr.
        apply list_elem_of_In, in_map_iff in Hr as (r0 & Hr0 & Hin).
        rewrite Forall_forall in Hbelow. apply list_elem_of_In in Hin.
        specialize (Hbelow r0 Hin).
        destruct (hasGuestyId key r0); subst r; exact Hbelow.
  - split; [|split; [|now repeat split]].
    + split; [eexists; now rewrite map_app|]. split.
      * intros k Hk. apply list_elem_of_singleton in Hk. subst k.
        exists row. split; [|now rewrite Hrow].
        apply elem_of_app. right. now apply list_elem_of_singleton.
      * intros r Hr _. apply elem_of_app. now left.
    + intros (Huniq & Hnodup & Hbelow). split; [|split].
      * intros k. rewrite count_app. specialize (Huniq k).
        unfold countByGuestyId at 2. cbn.
        destruct (hasGuestyId k row) eqn:Hk; cbn; [|lia].
        apply hasGuestyId_true in Hk. rewrite Hrow in Hk. cbn in Hk.
        inversion Hk; subst k. rewrite (find_none_count _ _ Hfind). lia.
      * rewrite map_app. cbn. apply NoDup_app. split; [exact Hnodup|].
        split; [|apply NoDup_singleton].
        intros i Hi Hi'. apply list_elem_of_singleton in Hi'. subst i.
        apply list_elem_of_fmap in Hi as (r & Hid & Hr).
        rewrite Forall_forall in Hbelow. specialize (Hbelow r Hr).
        rewrite Hrow in Hid. cbn in Hid. lia.
      * apply Forall_app. split.
        -- eapply Forall_impl; [exact Hbelow|]. intros r Hr. cbn in Hr. lia.
        -- apply Forall_singleton. rewrite Hrow. cbn. lia.
Qed.

End ListingTable.

Section ListingLoop.
Import ListingSync ListingSpec TableSpec.

Lemma vendorIds_cons raw raws :
  vendorIds (raw :: raws)
  = if hasVendorId raw then (extractGuestyId raw ??: "") :: vendorIds raws
    else vendorIds raws.
Proof. unfold vendorIds. cbn. now destruct (hasVendorId raw). Qed.

Lemma vendorIds_Some raws :
  map Some (vendorIds raws) = map extractGuestyId (List.filter hasVendorId raws).
Proof.
  induction raws as [|raw raws IH]; [reflexivity|].
  rewrite vendorIds_cons. cbn [List.filter].
  destruct (hasVendorId raw) eqn:Hid; [|exact IH]. cbn. rewrite IH. f_equal.
  unfold hasVendorId in Hid. apply truthy_inv in Hid as (s & -> & _). reflexivity.
Qed.

(** What the handling of one page does to the table. *)
Lemma forEachRaw_keeps hostId raws : ∀ synced w,
  let out := forEachRaw hostId raws synced w in
  keepsRows (vendorIds raws) (listings w) (listings (snd out)) ∧
  (listingTableOk w → listingTableOk (snd out)).
Proof.
  induction raws as [|raw raws IH]; intros synced w out; subst out.
  - cbn. split; [now apply keepsRows_refl | auto].
  - cbn [forEachRaw]. rewrite vendorIds_cons.
    change (Js.truthy (extractGuestyId raw)) with (hasVendorId raw).
    destruct (hasVendorId raw); cbn [negb]; [|apply IH].
    destruct (mapGuestyListingToPrismaData raw hostId) as [create update] eqn:Hmap.
    assert (Hkey : create_guestyId create = extractGuestyId raw ??: "")
      by (apply (f_equal fst) in Hmap; cbn in Hmap; now subst create).
    pose proof (listing_upsert_keeps _ create update w Hkey)
      as ((row & Hok) & Hkeep & Htable & _).
    destruct (listing_upsert (extractGuestyId raw ??: "") create update w)
      as [r w1] eqn:Hup. cbn [fst snd] in *. subst r.
    rewrite (bind_ok _ _ _ _ _ Hup).
    destruct (IH (synced ++ [row]) w1) as (Hkeep' & Htable').
    split; [|intros Hok; apply Htable', Htable, Hok].
    exact (keepsRows_trans [_] _ _ _ _ Hkeep Hkeep').
Qed.

Lemma pageRequests_snoc tr page limit :
  pageRequests (tr ++ [EvListingsPage page limit]) = pageRequests tr ++ [page].
Proof. unfold pageRequests. now rewrite omap_app. Qed.

Lemma listingUpserts_snoc_page tr page limit :
  listingUpserts (tr ++ [EvListingsPage page limit]) = listingUpserts tr.
Proof. unfold listingUpserts. rewrite omap_app. apply app_nil_r. Qed.

Lemma seqZ_one page : seqZ page 1 = [page].
Proof. rewrite seqZ_cons by lia. now rewrite seqZ_nil by lia. Qed.

(** What a run of the page loop does, however it ends. *)
Lemma loopRan_one env page synced w r :
  r = Ok synced ∨ r = Throw AxiosError →
  loopRan page synced w r (afterRequest env (EvListingsPage page DEFAULT_PAGE_SIZE) w).
Proof.
  intros Hr. exists 1, [].
  cbn [afterRequest trace listings hosts calendarDays queue withClock withTrace].
  rewrite pageRequests_snoc, listingUpserts_snoc_page, app_nil_r, seqZ_one.
  split; [lia|]. split; [reflexivity|]. split; [reflexivity|].
  split; [now apply keepsRows_refl|]. split; [auto|].
  split; [reflexivity|]. split; [reflexivity|]. split; [reflexivity|].
  destruct Hr as [-> | ->]; [|reflexivity].
  exists []. now rewrite app_nil_r.
Qed.

Lemma pageLoop_inv env tok hostId : ∀ fuel page synced w r w',
  pageLoop fuel env tok hostId page synced w = Some (r, w') →
  loopRan page synced w r w'.
Proof.
  induction fuel as [|fuel IH]; intros page synced w r w' Hrun; [discriminate|].
  cbn [pageLoop] in Hrun.
  destruct (listingsEndpoint env tok page DEFAULT_PAGE_SIZE) as [data|].
  2: { rewrite request_rejected in Hrun. inversion Hrun; subst; clear Hrun.
       apply loopRan_one. now right. }
  rewrite request_ok in Hrun. fold (rawListingsOf data) in Hrun.
  destruct (Z.of_nat (length (rawListingsOf data)) =? 0).
  { inversion Hrun; subst; clear Hrun. apply loopRan_one. now left. }
  set (w1 := afterRequest env (EvListingsPage page DEFAULT_PAGE_SIZE) w) in *.
  destruct (forEachRaw_spec hostId (rawListingsOf data) synced w1)
    as (news & w2 & Hpage & Hids & Htrace & Hhosts & _ & Hqueue & Hdays).
  pose proof (forEachRaw_keeps hostId (rawListingsOf data) synced w1) as Hkeeps.
  rewrite Hpage in Hrun, Hkeeps. cbn [snd] in Hkeeps. destruct Hkeeps as [Hkeep Htable].
  assert (Hreq : pageRequests (trace w2) = pageRequests (trace w) ++ [page])
    by (rewrite Htrace, pageRequests_upserts; subst w1; apply pageRequests_snoc).
  assert (Hups : listingUpserts (trace w2)
                 = listingUpserts (trace w) ++ vendorIds (rawListingsOf data))
    by (rewrite Htrace, listingUpserts_app; subst w1; cbn;
        now rewrite listingUpserts_snoc_page).
  assert (Hdone : loopRan page synced w (Ok (synced ++ news)) w2).
  { exists 1, (vendorIds (rawListingsOf data)). rewrite seqZ_one.
    split; [lia|]. split; [exact Hreq|]. split; [exact Hups|].
    split; [exact Hkeep|]. split; [exact Htable|].
    split; [exact Hhosts|]. split; [exact Hdays|]. split; [exact Hqueue|].
    exists news. split; [reflexivity|]. now rewrite vendorIds_Some. }
  destruct (truthyPages (GuestyListResponse.pages data)
            && (GuestyListResponse.pages data ??: 0 <=? page)).
  { inversion Hrun; subst; clear Hrun. exact Hdone. }
  destruct (negb (truthyPages (GuestyListResponse.pages data))
            && (Z.of_nat (length (rawListingsOf data)) <? DEFAULT_PAGE_SIZE)).
  { inversion Hrun; subst; clear Hrun. exact Hdone. }
  clear Hdone.
  destruct (IH _ _ _ _ _ Hrun)
    as (k & keys & Hk & Hreq' & Hups' & Hkeep' & Htable' & Hhosts' & Hdays' & Hqueue' & Hres).
  exists (1 + k), (vendorIds (rawListingsOf data) ++ keys).
  split; [lia|]. split.
  { rewrite Hreq', Hreq, <- app_assoc. f_equal.
    rewrite (seqZ_cons page (1 + k)) by lia. cbn [app]. f_equal. f_equal; lia. }
  split; [now rewrite Hups', Hups, <- app_assoc|].
  split; [exact (keepsRows_trans _ _ _ _ _ Hkeep Hkeep')|].
  split; [auto|].
  split; [now rewrite Hhosts', Hhosts|].
  split; [now rewrite Hdays', Hdays|].
  split; [now rewrite Hqueue', Hqueue|].
  destruct r as [out|e]; [|exact Hres].
  destruct Hres as (news' & -> & Hids').
  exists (news ++ news'). split; [now rewrite app_assoc|].
  now rewrite !map_app, Hids', Hids, <- vendorIds_Some.
Qed.

End ListingLoop.

Section ListingSyncProperties.
Import ListingSync ListingSpec TableSpec.

Lemma listingTableOk_frame w w' :
  listings w' = listings w → nextListingId w' = nextListingId w →
  listingTableOk w → listingTableOk w'.
Proof. unfold listingTableOk. now intros -> ->. Qed.

Lemma omap_token_events {B} (f : Event → option B) evs :
  (∀ e, TokenSpec.isTokenEvent e = true → f e = None) →
  forallb TokenSpec.isTokenEvent evs = true → omap f evs = [].
Proof.
  intros Hf. induction evs as [|e evs IH]; [reflexivity|]. cbn.
  intros H. apply andb_prop in H as [He Hevs]. now rewrite (Hf e He), IH.
Qed.

Lemma listingUpserts_token tr evs :
  forallb TokenSpec.isTokenEvent evs = true →
  listingUpserts (tr ++ evs) = listingUpserts tr.
Proof.
  intros H. unfold listingUpserts. rewrite omap_app, (omap_token_events _ evs);
    [apply app_nil_r | | exact H].
  now intros [].
Qed.

(** The two ways [syncAllListingsForHost] can end. *)
Lemma syncAll_run fuel env hostId w r w' :
  syncAllListingsForHost fuel env hostId w = Some (r, w') →
  (∃ e, GuestyToken.getGuestyAccessToken env hostId w = (Throw e, w') ∧ r = Throw e) ∨
  (∃ tok w0, GuestyToken.getGuestyAccessToken env hostId w = (Ok tok, w0) ∧
             loopRan 1 [] w0 r w').
Proof.
  unfold syncAllListingsForHost.
  destruct (GuestyToken.getGuestyAccessToken env hostId w) as [[tok|e] w0].
  - intros H. right. exists tok, w0. split; [reflexivity|].
    eapply pageLoop_inv. exact H.
  - intros H. inversion H; subst. left. now exists e.
Qed.

(** X5. A full sync keeps the listing table well formed, however it ends:
    vendor identifiers stay unique, primary keys stay unique and below the
    next key. *)
Theorem syncAll_table_ok fuel env hostId w r w' :
  listingTableOk w →
  syncAllListingsForHost fuel env hostId w = Some (r, w') →
  listingTableOk w'.
Proof.
  intros Hok Hrun.
  pose proof (token_frame env hostId w) as (Hl & Hn & _).
  destruct (syncAll_run _ _ _ _ _ _ Hrun) as [(e & Htok & _) | (tok & w0 & Htok & Hloop)];
    rewrite Htok in Hl, Hn; cbn [snd] in Hl, Hn.
  - exact (listingTableOk_frame _ _ Hl Hn Hok).
  - destruct Hloop as (k & keys & _ & _ & _ & _ & Htable & _).
    apply Htable. exact (listingTableOk_frame _ _ Hl Hn Hok).
Qed.

Lemma syncAll_table_ok_witness :
  ∃ r w',
    syncAllListingsForHost 5 (TableExamples.paging fourShortPages) 1
      TableExamples.worldWithForeignListing = Some (r, w') ∧
    listingTableOk w'.
Proof.
  eexists _, _. split; [vm_compute; reflexivity|].
  eapply (syncAll_table_ok 5 (TableExamples.paging fourShortPages) 1
            TableExamples.worldWithForeignListing).
  - split; [|split].
    + intros key. unfold countByGuestyId. cbn.
      destruct (hasGuestyId key _); cbn; lia.
    + repeat constructor. now intros H%elem_of_nil.
    + repeat constructor.
  - vm_compute. reflexivity.
Defined.

(** X6. A full sync never deletes a listing, never changes the primary
    key, the vendor identifier or the owner of a row, and changes no row
    other than those it upserts; every identifier it has upserted has its
    row afterwards, also when a later page fails. Calendar days and the
    job queue are not touched. *)
Theorem syncAll_keeps_rows fuel env hostId w r w' :
  syncAllListingsForHost fuel env hostId w = Some (r, w') →
  ∃ keys,
    listingUpserts (trace w') = listingUpserts (trace w) ++ keys ∧
    keepsRows keys (listings w) (listings w') ∧
    calendarDays w' = calendarDays w ∧ queue w' = queue w.
Proof.
  intros Hrun.
  pose proof (token_frame env hostId w) as (Hl & _ & Hd & _ & Hq & evs & Hevs & Htokev).
  destruct (syncAll_run _ _ _ _ _ _ Hrun) as [(e & Htok & _) | (tok & w0 & Htok & Hloop)];
    rewrite Htok in Hl, Hd, Hq, Hevs; cbn [snd] in Hl, Hd, Hq, Hevs.
  - exists []. rewrite Hevs, (listingUpserts_token _ _ Htokev), app_nil_r, Hl.
    split; [reflexivity|]. split; [now apply keepsRows_refl | now split].
  - destruct Hloop as (k & keys & _ & _ & Hups & Hkeep & _ & _ & Hd' & Hq' & _).
    exists keys. rewrite Hups, Hevs, (listingUpserts_token _ _ Htokev).
    split; [reflexivity|]. rewrite <- Hl. split; [exact Hkeep|].
    split; congruence.
Qed.

Lemma syncAll_keeps_rows_witness :
  ∃ w' keys,
    syncAllListingsForHost 3 (TableExamples.paging secondPageFails) 1
      TableExamples.worldWithForeignListing = Some (Throw AxiosError, w') ∧
    listingUpserts (trace w')
    = listingUpserts (trace TableExamples.worldWithForeignListing) ++ keys ∧
    keepsRows keys (listings TableExamples.worldWithForeignListing) (listings w') ∧
    calendarDays w' = calendarDays TableExamples.worldWithForeignListing ∧
    queue w' = queue TableExamples.worldWithForeignListing.
Proof.
  eexists. 
  assert (Hrun : syncAllListingsForHost 3 (TableExamples.paging secondPageFails) 1
                   TableExamples.worldWithForeignListing = Some (Throw AxiosError, _))
    by (vm_compute; reflexivity).
  destruct (syncAll_keeps_rows _ _ _ _ _ _ Hrun) as (keys & Hkeys).
  exists keys. split; [exact Hrun | exact Hkeys].
Defined.

End ListingSyncProperties.

Section PagingProperties.
Import ListingSync ListingSpec TableSpec.



(** X10. When the first page comes back empty the sync is over after this
    one request, with no listing and an untouched table, whatever page
    count the answer reports. *)
Theorem syncAll_empty_first_page fuel env hostId w tok w0 data :
  GuestyToken.getGuestyAccessToken env hostId w = (Ok tok, w0) →
  listingsEndpoint env tok 1 DEFAULT_PAGE_SIZE = Some data →
  rawListingsOf data = [] →
  syncAllListingsForHost (S fuel) env hostId w
  = Some (Ok [], afterRequest env (EvListingsPage 1 DEFAULT_PAGE_SIZE) w0).
Proof.
  intros Htok Hdata Hempty. unfold syncAllListingsForHost. rewrite Htok.
  cbn [pageLoop]. rewrite Hdata, request_ok. fold (rawListingsOf data).
  now rewrite Hempty.
Qed.

Lemma syncAll_empty_first_page_witness :
  syncAllListingsForHost 1
    (TableExamples.paging (fun _ _ _ => Some (ListingExamples.pageOf [] (Some 9))))
    1 ListingExamples.linkedWorld
  = Some (Ok [],
          afterRequest
            (TableExamples.paging (fun _ _ _ => Some (ListingExamples.pageOf [] (Some 9))))
            (EvListingsPage 1 DEFAULT_PAGE_SIZE) ListingExamples.linkedWorld).
Proof.
  exact (syncAll_empty_first_page 0
           (TableExamples.paging (fun _ _ _ => Some (ListingExamples.pageOf [] (Some 9))))
           1 ListingExamples.linkedWorld "stored" ListingExamples.linkedWorld
           (ListingExamples.pageOf [] (Some 9)) eq_refl eq_refl eq_refl).
Defined.

(** X11. Against a vendor that reports no page count and fills every page
    up to the limit, the loop does not end: no number of iterations is
    enough. *)
Theorem pageLoop_endless env tok hostId :
  (∀ page, ∃ data,
     listingsEndpoint env tok page DEFAULT_PAGE_SIZE = Some data ∧
     truthyPages (GuestyListResponse.pages data) = false ∧
     (50 ≤ length (rawListingsOf data))%nat) →
  ∀ fuel page synced w, pageLoop fuel env tok hostId page synced w = None.
Proof.
  intros Hfull. induction fuel as [|fuel IH]; intros page synced w; [reflexivity|].
  destruct (Hfull page) as (data & Hdata & Hpages & Hlen).
  assert (Hne : rawListingsOf data ≠ []) by (destruct (rawListingsOf data); cbn in *; [lia | discriminate]).
  destruct (pageLoop_page fuel env tok hostId page synced w data Hdata Hne)
    as (news & w2 & _ & _ & ->).
  rewrite Hpages. cbn [andb negb orb].
  replace (Z.of_nat (length (rawListingsOf data)) <? DEFAULT_PAGE_SIZE) with false
    by (symmetry; apply Z.ltb_ge; unfold DEFAULT_PAGE_SIZE; lia).
  apply IH.
Qed.

Lemma pageLoop_endless_witness :
  pageLoop 100 (TableExamples.paging endlessPages) "stored" 1 1 []
    ListingExamples.linkedWorld = None.
Proof.
  refine (pageLoop_endless (TableExamples.paging endlessPages) "stored" 1 _
            100%nat 1 [] ListingExamples.linkedWorld).
  intros page. eexists. split; [reflexivity|]. split; [reflexivity|].
  vm_compute. lia.
Defined.

(** X12. When every page answer reports the page count [n] and is not
    empty, the sync requests exactly the pages 1 to [n], whatever their
    sizes, and succeeds. *)
Theorem syncAll_reported_pages fuel env hostId w tok w0 n :
  GuestyToken.getGuestyAccessToken env hostId w = (Ok tok, w0) →
  1 <= n →
  (∀ page, 1 <= page <= n → ∃ data,
     listingsEndpoint env tok page DEFAULT_PAGE_SIZE = Some data ∧
     GuestyListResponse.pages data = Some n ∧
     rawListingsOf data ≠ []) →
  n <= Z.of_nat fuel →
  ∃ synced w',
    syncAllListingsForHost fuel env hostId w = Some (Ok synced, w') ∧
    pageRequests (trace w') = pageRequests (trace w) ++ seqZ 1 n.
Proof.
  intros Htok Hn Hpages Hfuel.
  assert (Hloop : ∀ m fuel' page synced w1,
            1 <= page → page + Z.of_nat m = n → (S m ≤ fuel')%nat →
            ∃ out w',
              pageLoop fuel' env tok hostId page synced w1 = Some (Ok out, w') ∧
              pageRequests (trace w')
              = pageRequests (trace w1) ++ seqZ page (Z.of_nat (S m))).
  { induction m as [|m IH]; intros fuel' page synced w1 Hpage Hsum Hle;
      (destruct fuel' as [|fuel']; [lia|]);
      destruct (Hpages page ltac:(lia)) as (data & Hdata & Hcount & Hne);
      destruct (pageLoop_page fuel' env tok hostId page synced w1 data Hdata Hne)
        as (news & w2 & _ & Htrace & ->);
      rewrite Hcount; cbn [truthyPages Js.coalesceTo negb andb orb].
    - replace (negb (n =? 0)) with true by (symmetry; apply negb_true_iff, Z.eqb_neq; lia).
      replace (n <=? page) with true by (symmetry; apply Z.leb_le; lia).
      cbn [andb orb]. eexists _, _. split; [reflexivity|].
      rewrite Htrace, pageRequests_upserts, pageRequests_snoc.
      now rewrite seqZ_one.
    - replace (negb (n =? 0)) with true by (symmetry; apply negb_true_iff, Z.eqb_neq; lia).
      replace (n <=? page) with false by (symmetry; apply Z.leb_gt; lia).
      cbn [andb orb].
      destruct (IH fuel' (page + 1) (synced ++ news) w2) as (out & w' & Hrun & Hreq);
        [lia | lia | lia |].
      exists out, w'. split; [exact Hrun|].
      rewrite Hreq, Htrace, pageRequests_upserts, pageRequests_snoc, <- app_assoc.
      f_equal. rewrite (seqZ_cons page (Z.of_nat (S (S m)))) by lia.
      cbn [app]. f_equal. f_equal; lia. }
  destruct (Hloop (Z.to_nat (n - 1)) fuel 1 [] w0) as (out & w' & Hrun & Hreq);
    [lia | lia | lia |].
  exists out, w'. unfold syncAllListingsForHost. rewrite Htok.
  split; [exact Hrun|].
  pose proof (token_frame env hostId w) as (_ & _ & _ & _ & _ & evs & Hevs & Htokev).
  rewrite Htok in Hevs. cbn [snd] in Hevs.
  rewrite Hreq, Hevs, (pageRequests_token _ _ Htokev). f_equal. f_equal. lia.
Qed.

Lemma syncAll_reported_pages_witness :
  ∃ synced w',
    syncAllListingsForHost 4 (TableExamples.paging fourShortPages) 1
      ListingExamples.linkedWorld = Some (Ok synced, w') ∧
    pageRequests (trace w')
    = pageRequests (trace ListingExamples.linkedWorld) ++ seqZ 1 4.
Proof.
  apply (syncAll_reported_pages 4 (TableExamples.paging fourShortPages) 1
           ListingExamples.linkedWorld "stored" ListingExamples.linkedWorld 4
           eq_refl).
  - lia.
  - intros page _. eexists. split; [reflexivity|]. split; [reflexivity|]. discriminate.
  - lia.
Defined.

End PagingProperties.

Section SingleListingProperties.
Import ListingSync ListingSpec TableSpec.

(** X8. A single-listing sync makes at most one upsert; it keeps the table
    well formed, deletes nothing, changes no row but the one it upserts and
    touches neither calendar days nor the job queue; when it throws, no
    upsert was made and the listing table is as before. *)
Theorem syncListing_keeps_table env hostId gid w :
  let out := syncListingByGuestyId env hostId gid w in
  ∃ keys,
    (length keys ≤ 1)%nat ∧
    listingUpserts (trace (snd out)) = listingUpserts (trace w) ++ keys ∧
    keepsRows keys (listings w) (listings (snd out)) ∧
    (listingTableOk w → listingTableOk (snd out)) ∧
    calendarDays (snd out) = calendarDays w ∧ queue (snd out) = queue w ∧
    (∀ e, fst out = Throw e → keys = [] ∧ listings (snd out) = listings w).
Proof.
  intros out. subst out. rewrite syncListing_run.
  pose proof (token_frame env hostId w) as (Hl & Hn & Hd & _ & Hq & evs & Hevs & Htokev).
  destruct (GuestyToken.getGuestyAccessToken env hostId w) as [[tok|e] w0];
    cbn [snd] in *.
  2: { exists []. rewrite Hevs, (listingUpserts_token _ _ Htokev), app_nil_r, Hl.
       split; [cbn; lia|]. split; [reflexivity|].
       split; [now apply keepsRows_refl|].
       split; [now apply listingTableOk_frame|]. now repeat split. }
  destruct (listingEndpoint env tok gid) as [data|].
  2: { exists []. cbn [snd fst afterRequest trace listings calendarDays queue
                        withClock withTrace].
       unfold listingUpserts at 1. rewrite omap_app. cbn [omap]. fold (listingUpserts (trace w0)).
       rewrite Hevs, (listingUpserts_token _ _ Htokev), !app_nil_r, Hl.
       split; [cbn; lia|]. split; [reflexivity|].
       split; [now apply keepsRows_refl|].
       split; [intros Hok; now apply (listingTableOk_frame w)|]. now repeat split. }
  set (w1 := afterRequest env (EvListingGet gid) w0).
  pose proof (listing_upsert_keeps (upsertKey data gid)
                (mkCreate (upsertKey data gid) hostId
                   (snd (mapGuestyListingToPrismaData data hostId)))
                (snd (mapGuestyListingToPrismaData data hostId)) w1 eq_refl)
    as ((row & Hok) & Hkeep & Htable & _ & Hd' & Hq').
  destruct (listing_upsert_spec (upsertKey data gid)
              (mkCreate (upsertKey data gid) hostId
                 (snd (mapGuestyListingToPrismaData data hostId)))
              (snd (mapGuestyListingToPrismaData data hostId)) w1 eq_refl)
    as (row' & rows' & Hup & _).
  exists [upsertKey data gid].
  split; [cbn; lia|]. split.
  { rewrite Hup. cbn [snd trace withListings withTrace]. subst w1.
    cbn [afterRequest trace withClock withTrace].
    unfold listingUpserts. rewrite !omap_app. cbn [omap]. rewrite app_nil_r.
    fold (listingUpserts (trace w0)). fold (listingUpserts (trace w)).
    now rewrite Hevs, (listingUpserts_token _ _ Htokev). }
  split; [now rewrite <- Hl|].
  split; [intros Hok'; apply Htable; now apply (listingTableOk_frame w)|].
  split; [now rewrite Hd', <- Hd|]. split; [now rewrite Hq', <- Hq|].
  intros e He. rewrite Hok in He. discriminate.
Qed.

(** X9. The listing a single-listing sync returns carries the key of the
    upsert. If the table already had a row under that key, the listing is
    that row with its primary key and its owner: a sync run for another
    host does not take the listing over. Otherwise it is a new row with the
    next primary key, owned by the host of the call. *)
Theorem syncListing_keeps_owner env hostId gid w l w' :
  syncListingByGuestyId env hostId gid w = (Ok l, w') →
  ∃ key, listing_guestyId l = Some key ∧
    match find (hasGuestyId key) (listings w) with
    | Some old => rowIdentity l = rowIdentity old
    | None => listing_id l = nextListingId w ∧ listing_hostId l = hostId
    end.
Proof.
  intros Hrun. rewrite syncListing_run in Hrun.
  pose proof (token_frame env hostId w) as (Hl & Hn & _).
  destruct (GuestyToken.getGuestyAccessToken env hostId w) as [[tok|e] w0];
    [|discriminate]. cbn [snd] in *.
  destruct (listingEndpoint env tok gid) as [data|]; [|discriminate].
  destruct (listing_upsert_spec (upsertKey data gid)
              (mkCreate (upsertKey data gid) hostId
                 (snd (mapGuestyListingToPrismaData data hostId)))
              (snd (mapGuestyListingToPrismaData data hostId))
              (afterRequest env (EvListingGet gid) w0) eq_refl)
    as (row & rows' & Hup & Hrow).
  rewrite Hup in Hrun. inversion Hrun; subst row w'; clear Hrun.
  exists (upsertKey data gid).
  cbn [afterRequest listings nextListingId withClock withTrace] in Hrow.
  rewrite Hl, Hn in Hrow.
  destruct (find (hasGuestyId (upsertKey data gid)) (listings w)) as [old|] eqn:Hfind;
    destruct Hrow as [-> _].
  - split; [|reflexivity]. apply find_some in Hfind as [_ Hhas].
    now apply hasGuestyId_true in Hhas.
  - now repeat split.
Qed.

Lemma syncListing_keeps_owner_witness :
  ∃ key,
    listing_guestyId
      (mkListing 5 (Some "abc123") 2
         (snd (mapGuestyListingToPrismaData
                 (ListingExamples.bareListing (Some "abc123")) 1)))
    = Some key ∧
    match find (hasGuestyId key) (listings TableExamples.worldWithForeignListing) with
    | Some old =>
        rowIdentity
          (mkListing 5 (Some "abc123") 2
             (snd (mapGuestyListingToPrismaData
                     (ListingExamples.bareListing (Some "abc123")) 1)))
        = rowIdentity old
    | None =>
        listing_id
          (mkListing 5 (Some "abc123") 2
             (snd (mapGuestyListingToPrismaData
                     (ListingExamples.bareListing (Some "abc123")) 1)))
        = nextListingId TableExamples.worldWithForeignListing ∧
        listing_hostId
          (mkListing 5 (Some "abc123") 2
             (snd (mapGuestyListingToPrismaData
                     (ListingExamples.bareListing (Some "abc123")) 1)))
        = 1
    end.
Proof.
  exact (syncListing_keeps_owner
           (ListingExamples.servingListing (ListingExamples.bareListing (Some "abc123")))
           1 "abc123" TableExamples.worldWithForeignListing _ _ eq_refl).
Defined.

End SingleListingProperties.

(** ** Calendar table, further *)

Section DayTable.
Import CalendarSync CalendarSpec DayTableSpec.

Lemma hasKey_true listingId date r :
  hasKey listingId date r = true ↔ dayKey r = (listingId, date).
Proof.
  unfold hasKey, dayKey. rewrite andb_true_iff, Z.eqb_eq, bool_decide_eq_true.
  split; [intros [-> ->]; reflexivity | intros H; inversion H; auto].
Qed.

Lemma hasKey_false listingId date r :
  hasKey listingId date r = false ↔ dayKey r ≠ (listingId, date).
Proof.
  rewrite <- hasKey_true. destruct (hasKey listingId date r); split; congruence.
Qed.





End DayTable.

Section CalendarSyncProperties.
Import CalendarSync CalendarSpec DayTableSpec.









End CalendarSyncProperties.

(** ** Webhook route, further *)

Section WebhookProperties.
Import Webhooks WebhookSpec.

Lemma withQueue_nil w : withQueue (queue w ++ []) w = w.
Proof. destruct w. unfold withQueue. cbn. now rewrite app_nil_r. Qed.

Lemma find_elem_of {A} (p : A → bool) (l : list A) x :
  find p l = Some x → x ∈ l ∧ p x = true.
Proof.
  intros H. apply find_some in H as [Hin Hp]. split; [|exact Hp].
  now apply list_elem_of_In.
Qed.

Lemma resolveHostIdFromPayload_found body w h w1 :
  resolveHostIdFromPayload body w = (Ok (Some h), w1) →
  ∃ k host, hosts w !! k = Some host ∧ host_id host = h ∧
            is_Some (guestyAccountId host).
Proof.
  unfold resolveHostIdFromPayload.
  match goal with |- context [truthy ?a] => set (accountId := a) end.
  destruct (truthy accountId); cbn [negb]; [|discriminate].
  destruct accountId as [[| | |s| |]|]; try discriminate.
  cbn. intros Hrun. inversion Hrun as [[Hfound Hw]]. clear Hrun. subst w1.
  destruct (find (hasAccountId s) (snd <$> map_to_list (hosts w))) as [host|] eqn:Hfind;
    [|discriminate].
  cbn in Hfound. inversion Hfound; subst h.
  apply find_elem_of in Hfind as [Hin Hacc].
  apply list_elem_of_fmap in Hin as ([k host'] & -> & Hin).
  apply elem_of_map_to_list in Hin.
  exists k, host'. cbn. split; [exact Hin|]. split; [reflexivity|].
  unfold hasAccountId in Hacc. apply bool_decide_eq_true in Hacc. cbn in Hacc.
  now rewrite Hacc.
Qed.

Lemma listing_findByGuestyId_found g w listingId w1 :
  listing_findByGuestyId g w = (Ok (Some listingId), w1) →
  ∃ listing, listing ∈ listings w ∧ listing_id listing = listingId ∧
             is_Some (listing_guestyId listing).
Proof.
  destruct g as [| | |s| |]; try discriminate.
  cbn. intros Hrun. inversion Hrun as [[Hfound Hw]]. clear Hrun. subst w1.
  destruct (find (ListingSync.hasGuestyId s) (listings w)) as [listing|] eqn:Hfind;
    [|discriminate].
  cbn in Hfound. inversion Hfound; subst listingId.
  apply find_elem_of in Hfind as [Hin Hkey].
  exists listing. split; [exact Hin|]. split; [reflexivity|].
  unfold ListingSync.hasGuestyId in Hkey. apply bool_decide_eq_true in Hkey.
  now rewrite Hkey.
Qed.

Lemma truthy_coalesce (v : option Json) :
  truthy v = true → truthy (Some (v ??: JNull)) = true.
Proof. now destruct v. Qed.

(** What the [try] block does: at most one job, for a host or a listing
    that exists, and none when an error is raised. *)
Lemma dispatch_jobs body eventType w :
  ∃ r jobs,
    dispatch body eventType w = (r, withQueue (queue w ++ jobs) w) ∧
    (length jobs ≤ 1)%nat ∧ Forall (targetExists w) jobs ∧
    (∀ e, r = Throw e → jobs = []).
Proof.
  unfold dispatch.
  set (guestyListingId := extractGuestyListingId body).
  destruct (has LISTING_EVENTS eventType).
  - unfold bind at 1.
    pose proof (resolveHostIdFromPayload_pure body w) as Hpure.
    destruct (resolveHostIdFromPayload body w) as [[[h|]|e] w1] eqn:Hres;
      cbn [snd] in Hpure; subst w1.
    + destruct (truthy guestyListingId) eqn:Hgid.
      * exists (Ok tt), [SyncSingleListing h (guestyListingId ??: JNull)].
        split; [reflexivity|]. split; [cbn; lia|].
        split; [|discriminate].
        constructor; [|constructor]. split; [now apply truthy_coalesce|].
        exact (resolveHostIdFromPayload_found _ _ _ _ Hres).
      * exists (Ok tt), []. rewrite withQueue_nil. now repeat split; cbn; try lia.
    + exists (Ok tt), []. rewrite withQueue_nil. now repeat split; cbn; try lia.
    + exists (Throw e), []. rewrite withQueue_nil. now repeat split; cbn; try lia.
  - destruct (has RESERVATION_EVENTS eventType);
      [|exists (Ok tt), []; rewrite withQueue_nil; now repeat split; cbn; try lia].
    destruct (truthy guestyListingId);
      [|exists (Ok tt), []; rewrite withQueue_nil; now repeat split; cbn; try lia].
    unfold bind at 1.
    pose proof (listing_findByGuestyId_pure (guestyListingId ??: JNull) w) as Hpure.
    destruct (listing_findByGuestyId (guestyListingId ??: JNull) w)
      as [[[listingId|]|e] w1] eqn:Hfind; cbn [snd] in Hpure; subst w1.
    + exists (Ok tt), [SyncCalendar listingId].
      split; [reflexivity|]. split; [cbn; lia|]. split; [|discriminate].
      constructor; [|constructor].
      exact (listing_findByGuestyId_found _ _ _ _ Hfind).
    + exists (Ok tt), []. rewrite withQueue_nil. now repeat split; cbn; try lia.
    + exists (Throw e), []. rewrite withQueue_nil. now repeat split; cbn; try lia.
Qed.

(** The whole route. *)
Lemma postGuesty_jobs raw w :
  (postGuesty raw w = (Throw TypeError, w)) ∨
  (∃ jobs,
     postGuesty raw w
     = (Ok (Respond 200 (JObj [("ok", JBool true)])), withQueue (queue w ++ jobs) w) ∧
     (length jobs ≤ 1)%nat ∧ Forall (targetExists w) jobs).
Proof.
  unfold postGuesty. set (body := parseBody raw).
  pose proof (eventTypeOf_pure body w) as Hpure.
  destruct (eventTypeOf body w) as [[eventType|e] w1] eqn:Hevent;
    cbn [snd] in Hpure; subst w1.
  - right.
    destruct (dispatch_jobs body eventType w) as (r & jobs & Hrun & Hlen & Hall & Hthrow).
    unfold seq, bind, tryCatch. rewrite Hevent, Hrun.
    destruct r as [[]|e].
    + exists jobs. now repeat split.
    + rewrite (Hthrow e eq_refl). exists []. cbn. now repeat split; try lia.
  - left. unfold bind at 1. rewrite Hevent. f_equal.
    unfold eventTypeOf in Hevent.
    destruct body; try (inversion Hevent; reflexivity);
      match type of Hevent with
      | context [match ?v with Some _ => _ | None => _ end] =>
          destruct v as [j|]; [destruct (toString j)|];
          inversion Hevent; reflexivity
      end.
Qed.

(** X20. Whatever the request, the webhook route either answers 200
    {ok: true} or fails with a TypeError raised while the event type is
    read, before anything is done. It adds at most one job to the queue
    and changes nothing else: no host, listing or calendar day is written
    and the vendor is never called. *)
Theorem webhook_one_job_at_most raw w :
  let out := postGuesty raw w in
  ∃ jobs,
    snd out = withQueue (queue w ++ jobs) w ∧ (length jobs ≤ 1)%nat ∧
    (fst out = Ok (Respond 200 (JObj [("ok", JBool true)])) ∨
     fst out = Throw TypeError ∧ jobs = []).
Proof.
  intros out. subst out.
  destruct (postGuesty_jobs raw w) as [Hthrow | (jobs & Hrun & Hlen & _)].
  - exists []. rewrite Hthrow, withQueue_nil. cbn. split; [reflexivity|].
    split; [lia|]. now right.
  - exists jobs. rewrite Hrun. cbn. split; [reflexivity|]. split; [exact Hlen|].
    now left.
Qed.

(** X21. A job the webhook route enqueues refers to something that
    exists: a single-listing sync names a host linked to a vendor account
    and a truthy listing identifier, a calendar sync names a stored listing
    with a vendor identifier. The route never enqueues a sync of all the
    listings of a host nor a sync of all hosts. *)
Theorem webhook_job_target_exists raw w jobs :
  snd (postGuesty raw w) = withQueue (queue w ++ jobs) w →
  Forall (targetExists w) jobs.
Proof.
  intros Hjobs.
  assert (Hqueue : queue (snd (postGuesty raw w)) = queue w ++ jobs)
    by now rewrite Hjobs.
  destruct (postGuesty_jobs raw w) as [Hthrow | (jobs' & Hrun & _ & Hall)].
  - rewrite Hthrow in Hqueue. cbn [snd] in Hqueue.
    rewrite <- (app_nil_r (queue w)) in Hqueue at 1.
    apply app_inv_head in Hqueue. subst jobs. constructor.
  - rewrite Hrun in Hqueue. cbn in Hqueue.
    apply app_inv_head in Hqueue. now subst jobs'.
Qed.

Lemma webhook_job_target_exists_witness :
  Forall (targetExists WebhookExamples.world) [SyncCalendar 7].
Proof.
  exact (webhook_job_target_exists
           (BodyBuffer (Some (WebhookExamples.eventFor "reservation.updated")))
           WebhookExamples.world [SyncCalendar 7] eq_refl).
Defined.

(** X22. A body that carries neither [event] nor [type] (in particular a
    text that does not parse, or no body at all, both read as the empty
    object) is answered 200 {ok: true} and nothing is enqueued. *)
Theorem webhook_no_event raw w :
  parseBody raw ≠ JNull →
  nullish (get (parseBody raw) "event") = true →
  nullish (get (parseBody raw) "type") = true →
  postGuesty raw w = (Ok (Respond 200 (JObj [("ok", JBool true)])), w).
Proof.
  intros Hnull Hevent Htype. unfold postGuesty.
  assert (Hrun : eventTypeOf (parseBody raw) w = (Ok "", w)).
  { unfold eventTypeOf, orElse. rewrite Hevent, Htype. cbn.
    now destruct (parseBody raw). }
  unfold bind at 1. rewrite Hrun. reflexivity.
Qed.

Lemma webhook_no_event_witness :
  postGuesty (BodyString None) WebhookExamples.world
  = (Ok (Respond 200 (JObj [("ok", JBool true)])), WebhookExamples.world).
Proof.
  apply (webhook_no_event (BodyString None) WebhookExamples.world);
    [discriminate | reflexivity | reflexivity].
Defined.

End WebhookProperties.

(** ** Recurring sync of all hosts *)

Section SyncQueueProperties.
Import SyncQueue.

Lemma forEachHost_run hostIds : ∀ w,
  forEachHost hostIds w
  = (Ok tt, withQueue (queue w ++ map SyncListings hostIds) w).
Proof.
  induction hostIds as [|hostId rest IH]; intros w.
  - cbn. now rewrite withQueue_nil.
  - cbn [forEachHost]. unfold seq, bind, Webhooks.enqueue, modify. rewrite IH.
    destruct w. unfold withQueue. cbn. now rewrite <- app_assoc.
Qed.

Lemma filter_fst_elem {A B} (p : A * B → bool) (l : list (A * B)) x :
  x ∈ (List.filter p l).*1 → x ∈ l.*1.
Proof.
  intros Hx. apply list_elem_of_fmap in Hx as (y & -> & Hy).
  apply list_elem_of_In, filter_In in Hy as [Hy _].
  apply list_elem_of_fmap_2. now apply list_elem_of_In.
Qed.

Lemma filter_fst_NoDup {A B} (p : A * B → bool) (l : list (A * B)) :
  NoDup l.*1 → NoDup (List.filter p l).*1.
Proof.
  induction l as [|x l IH]; cbn; [auto|].
  intros Hnodup. apply NoDup_cons in Hnodup as [Hx Hl].
  destruct (p x); cbn; [|auto].
  apply NoDup_cons. split; [|auto].
  intros Hin. apply Hx. exact (filter_fst_elem p l _ Hin).
Qed.

Lemma filter_snd {A B} (p : B → bool) (l : list (A * B)) :
  List.filter p l.*2 = (List.filter (fun kh => p kh.2) l).*2.
Proof.
  induction l as [|x l IH]; cbn; [reflexivity|].
  destruct (p x.2); cbn; now rewrite IH.
Qed.

Lemma syncAllHosts_selected w :
  ∃ selected : list (Z * Host),
    NoDup selected.*1 ∧
    (∀ k h, (k, h) ∈ selected ↔ hosts w !! k = Some h ∧ connected h = true) ∧
    syncAllHosts w
    = (Ok tt,
       withQueue (queue w ++ map (fun kh => SyncListings (host_id kh.2)) selected) w).
Proof.
  exists (List.filter (fun kh => connected kh.2) (map_to_list (hosts w))).
  split; [apply filter_fst_NoDup, NoDup_fst_map_to_list|]. split.
  - intros k h. rewrite list_elem_of_In, filter_In, <- list_elem_of_In.
    rewrite elem_of_map_to_list. reflexivity.
  - unfold syncAllHosts, host_findManyConnected, bind, gets.
    rewrite forEachHost_run, filter_snd. do 3 f_equal.
    generalize (List.filter (fun kh : Z * Host => connected kh.2) (map_to_list (hosts w))).
    intros l. induction l as [|x l IH]; cbn; [reflexivity | now rewrite <- IH].
Qed.

(** X23. The recurring job enqueues exactly one sync of all listings per
    connected host (a host with a vendor account and a refresh token, both
    not null), after the jobs already queued; hosts that are not connected
    get none. It changes nothing but the queue. *)
Theorem syncAllHosts_one_job_per_host w :
  ∃ selected : list (Z * Host),
    NoDup selected.*1 ∧
    (∀ k h, (k, h) ∈ selected ↔ hosts w !! k = Some h ∧ connected h = true) ∧
    syncAllHosts w
    = (Ok tt,
       withQueue (queue w ++ map (fun kh => SyncListings (host_id kh.2)) selected) w).
Proof. exact (syncAllHosts_selected w). Qed.

(** X24. The recurring job selects hosts whose refresh token is not null,
    the token code wants it truthy. For a host linked to an account whose
    refresh token is the empty string and whose stored access token cannot
    be used, the recurring job enqueues a sync of its listings, and that
    sync fails for want of a refresh token, without calling the vendor or
    writing anything. *)
Theorem fanout_empty_refresh_token fuel env w k host :
  hosts w !! k = Some host → host_id host = k →
  is_Some (guestyAccountId host) → guestyRefreshToken host = Some "" →
  GuestyToken.tokenStillValid host (clock w) = false →
  let w' := snd (syncAllHosts w) in
  SyncListings k ∈ queue w' ∧
  ListingSync.syncAllListingsForHost fuel env k w'
  = Some (Throw (MissingRefreshToken k), w').
Proof.
  intros Hhost Hid [a Ha] Hrefresh Hvalid w'.
  destruct (syncAllHosts_selected w) as (selected & _ & Hsel & Hrun).
  subst w'. rewrite Hrun. cbn [snd]. split.
  - destruct w. cbn in *. apply elem_of_app. right.
    apply list_elem_of_fmap. exists (k, host). split; [cbn; now rewrite Hid|].
    apply Hsel. split; [exact Hhost|]. unfold connected. now rewrite Ha, Hrefresh.
  - unfold ListingSync.syncAllListingsForHost, GuestyToken.getGuestyAccessToken.
    unfold bind, GuestyToken.host_findUnique, Date_now, gets.
    destruct w. cbn in *. rewrite Hhost. unfold withQueue. cbn [clock].
    rewrite Hvalid, Hrefresh. reflexivity.
Qed.

Lemma fanout_empty_refresh_token_witness :
  let w' := snd (syncAllHosts QueueExamples.world) in
  SyncListings 1 ∈ queue w' ∧
  ListingSync.syncAllListingsForHost 5 Examples.silentEnv 1 w'
  = Some (Throw (MissingRefreshToken 1), w').
Proof.
  apply (fanout_empty_refresh_token 5 Examples.silentEnv QueueExamples.world 1
           QueueExamples.hostWithEmptyRefreshToken);
    [reflexivity | reflexivity | now eexists | reflexivity | reflexivity].
Defined.

End SyncQueueProperties.

Section CalendarErrors.
Import CalendarSync.

(** X25. A calendar sync for a listing that is not stored, or is stored
    without vendor identifier (none, or the empty string), fails at once:
    no token is looked up, the vendor is not called and nothing is
    written. *)
Theorem syncCalendar_unlinked env listingId w :
  (∀ l, l ∈ listings w → listing_id l = listingId →
        Js.truthy (listing_guestyId l) = false) →
  ∃ e, syncCalendarForListing env listingId w = (Throw e, w) ∧
       (e = ListingNotFound listingId ∨ e = ListingNotLinked listingId).
Proof.
  intros Hunlinked. unfold syncCalendarForListing, getListingWithHost.
  unfold bind at 1. unfold bind at 1. unfold gets at 1.
  destruct (find (hasId listingId) (listings w)) as [listing|] eqn:Hfind.
  - apply find_elem_of in Hfind as [Hin Hid].
    unfold hasId in Hid. apply Z.eqb_eq in Hid.
    rewrite (Hunlinked listing Hin Hid). cbn.
    exists (ListingNotLinked listingId). split; [reflexivity | now right].
  - exists (ListingNotFound listingId). split; [reflexivity | now left].
Qed.

Lemma syncCalendar_unlinked_witness :
  ∃ e, syncCalendarForListing DayTableExamples.repeatedDate 7 UnlinkedExamples.world
       = (Throw e, UnlinkedExamples.world) ∧
       (e = ListingNotFound 7 ∨ e = ListingNotLinked 7).
Proof.
  apply (syncCalendar_unlinked DayTableExamples.repeatedDate 7 UnlinkedExamples.world).
  intros l Hl _. apply list_elem_of_singleton in Hl. now subst l.
Defined.

End CalendarErrors.
